(** * Verification model of the go-pg wrapper: client, DAO and migrator

    Shallow embedding of [wrapper.go], [repository/dao/dao.go] and
    [migrate] (the [Migrator]).  Go's [*pg.Tx] values are transaction
    identities ([nat]); a nil pointer is [None].  Effects on the shared
    [dbWrapper] (the [Client] every [DAO] points to) are threaded through
    a small state-and-panic monad over a [world]. *)

From Stdlib Require Import String Ascii ZArith Lia.
From stdpp Require Import base gmap list strings.

(* ------------------------------------------------------------------ *)
(** ** Errors *)

(** Errors produced by the go-pg driver ([pg.ErrNoRows],
    [pg.ErrMultiRows], or any other database error). *)
Inductive drv_err :=
| ErrNoRows
| ErrMultiRows
| DrvOther (code : nat).

(** Error values seen by callers of the DAO. *)
Inductive err :=
| EDriver (d : drv_err)          (* raw driver error *)
| ECtx (code : nat)              (* ctx.Err(): Canceled / DeadlineExceeded *)
| ENotFound                      (* pkgerr not-found kind *)
| EBadRequest (msg : string)     (* pkgerr.NewBadRequestError *)
| EInternal (msg : string)       (* pkgerr.NewInternalError *)
| EUser (code : nat).            (* any other error, e.g. returned by a callback *)

(** The application error kinds of package [errors]. *)
Definition is_app_kind (e : err) : bool :=
  match e with
  | ENotFound | EBadRequest _ | EInternal _ => true
  | _ => false
  end.

(* ------------------------------------------------------------------ *)
(** ** Contexts *)

(** A [context.Context]: the background context, a [context.WithValue]
    node, or a cancellable node identified by its cancel scope. *)
Inductive ctx_val :=
| VTx (tx : option nat)          (* a value of dynamic type *pg.Tx *)
| VOther (n : nat).              (* a value of any other type *)

Inductive context :=
| Background
| WithValue (parent : context) (key : nat) (v : ctx_val)
| WithCancel (parent : context) (scope : nat).

(** Keys are the addresses of package variables: [&TxKey], [&LoggerKey]. *)
Definition TxKey : nat := 0%nat.
Definition LoggerKey : nat := 1%nat.

(** [ctx.Value(key)]: the innermost binding wins. *)
Fixpoint ctx_value (c : context) (key : nat) : option ctx_val :=
  match c with
  | Background => None
  | WithValue p k v => if Nat.eqb k key then Some v else ctx_value p key
  | WithCancel p _ => ctx_value p key
  end.

(** [ctx.Err()], given the cancel scopes cancelled so far (scope, code). *)
Fixpoint ctx_err (cancels : list (nat * nat)) (c : context) : option err :=
  match c with
  | Background => None
  | WithValue p _ _ => ctx_err cancels p
  | WithCancel p s =>
      match list_find (fun sc => sc.1 = s) cancels with
      | Some (_, (_, code)) => Some (ECtx code)
      | None => ctx_err cancels p
      end
  end.

(** [getTxFromContext]: [ctx.Value(&TxKey)] asserted to type *pg.Tx, nil when the
    assertion fails. *)
Definition getTxFromContext (c : context) : option nat :=
  match ctx_value c TxKey with
  | Some (VTx tx) => tx
  | _ => None
  end.

(** [newTxContext]: [context.WithValue(ctx, &db.TxKey, tx)]. *)
Definition newTxContext (c : context) (tx : option nat) : context :=
  WithValue c TxKey (VTx tx).

(* ------------------------------------------------------------------ *)
(** ** The client ([dbWrapper]) *)

Record dbWrapper := {
  w_ctx : option context;        (* the stored context, nil = None *)
  w_conn : nat;                  (* the pooled *pg.DB *)
  w_tx : option nat;             (* the active *pg.Tx, nil = None *)
  w_wrapped : option nat         (* wrappedProcessor, nil = None *)
}.

Definition set_w_tx (w : dbWrapper) (tx : option nat) : dbWrapper :=
  {| w_ctx := w_ctx w; w_conn := w_conn w; w_tx := tx; w_wrapped := w_wrapped w |}.

(** [Option]: the only option of the package is [WithLogger], which adds a
    query hook to the pooled connection and returns the wrapper as is. *)
Inductive Option :=
| WithLogger (logger : nat) (duration : Z).

Definition apply_option (o : Option) (w : dbWrapper) : dbWrapper :=
  match o with
  | WithLogger _ _ => w
  end.

(** [NewDbClient]. *)
Definition NewDbClient (conn : nat) (options : list Option) : dbWrapper :=
  foldl (fun w o => apply_option o w)
    {| w_ctx := None; w_conn := conn; w_tx := None; w_wrapped := None |}
    options.

(** [dbWrapper.WithContext]. *)
Definition WithContext (w : dbWrapper) (c : context) : dbWrapper :=
  {| w_ctx := Some c; w_conn := w_conn w; w_tx := getTxFromContext c;
     w_wrapped := w_wrapped w |}.

(* ------------------------------------------------------------------ *)
(** ** The DAO record *)

Record DAO := {
  dao_db : nat;                  (* reference to the shared Client *)
  updatedField : string;
  deletedField : string
}.

(** [dao.New]. *)
Definition New (db : nat) : DAO :=
  {| dao_db := db; updatedField := "updated"; deletedField := "deleted" |}.

(** [DAO.SetUpdatedField]. *)
Definition SetUpdatedField (r : DAO) (fieldName : string) : DAO :=
  if String.eqb fieldName "" then r
  else {| dao_db := dao_db r; updatedField := fieldName; deletedField := deletedField r |}.

(** [DAO.SetDeletedField]. *)
Definition SetDeletedField (r : DAO) (fieldName : string) : DAO :=
  if String.eqb fieldName "" then r
  else {| dao_db := dao_db r; updatedField := updatedField r; deletedField := fieldName |}.

(* ------------------------------------------------------------------ *)
(** ** The shared world: client, driver transactions, cancellations *)

(** What the driver has been asked to do with transactions. *)
Inductive event :=
| EvBegin (t : nat)
| EvCommit (t : nat)
| EvRollback (t : nat).

Record world := {
  client : dbWrapper;            (* the one Client every DAO points to *)
  next_tx : nat;                 (* identity of the next begun *pg.Tx *)
  log : list event;              (* newest first *)
  cancels : list (nat * nat)     (* cancelled scopes and their ctx.Err code *)
}.

Definition set_client (w : world) (c : dbWrapper) : world :=
  {| client := c; next_tx := next_tx w; log := log w; cancels := cancels w |}.

(** State-and-panic monad: [None] is a Go panic (nil dereference). *)
Definition M (A : Type) : Type := world -> option (A * world).

Global Instance M_ret : MRet M := fun A a w => Some (a, w).
Global Instance M_bind : MBind M := fun A B k m w =>
  match m w with
  | Some (a, w') => k a w'
  | None => None
  end.

Definition get_client : M dbWrapper := fun w => Some (client w, w).
Definition put_client (c : dbWrapper) : M unit := fun w => Some (tt, set_client w c).
Definition emit (e : event) : M unit := fun w =>
  Some (tt, {| client := client w; next_tx := next_tx w; log := e :: log w;
               cancels := cancels w |}).
Definition panic {A} : M A := fun _ => None.

(** [ctx.Err()] read at the current moment. *)
Definition ctx_Err (c : context) : M (option err) := fun w => Some (ctx_err (cancels w) c, w).

(** The driver's [db.Begin()]: [br] is its error, if it fails. *)
Definition Begin (br : option drv_err) : M (option nat * option err) := fun w =>
  match br with
  | Some d => Some ((None, Some (EDriver d)), w)
  | None =>
      let t := next_tx w in
      Some ((Some t, None),
            {| client := client w; next_tx := S t; log := EvBegin t :: log w;
               cancels := cancels w |})
  end.

(** [dbWrapper.Tx]. *)
Definition Tx : M (option nat) := c ← get_client; mret (w_tx c).

(** [dbWrapper.WithContext] on the shared client. *)
Definition WithContextM (ctx : context) : M unit :=
  c ← get_client; put_client (WithContext c ctx).

(** [dbWrapper.StartTx]. *)
Definition StartTx (br : option drv_err) : M (option nat * option err) :=
  r ← Begin br;
  match r with
  | (_, Some e) => mret (None, Some e)
  | (tx, None) => c ← get_client; _ ← put_client (set_w_tx c tx); mret (tx, None)
  end.

(** [dbWrapper.Commit]: [w.tx.Commit()] panics on a nil [w.tx]; the
    driver's result [cr] is returned after [w.tx] is cleared. *)
Definition Commit (cr : option drv_err) : M (option err) :=
  c ← get_client;
  match w_tx c with
  | None => panic
  | Some t =>
      _ ← emit (EvCommit t);
      _ ← put_client (set_w_tx c None);
      mret (EDriver <$> cr)
  end.

(** [dbWrapper.Rollback]. *)
Definition Rollback (rr : option drv_err) : M (option err) :=
  c ← get_client;
  match w_tx c with
  | None => panic
  | Some t =>
      _ ← emit (EvRollback t);
      _ ← put_client (set_w_tx c None);
      mret (EDriver <$> rr)
  end.

(** Modelled from the spec: [pkgerr.Convert] (package [errors], not in
    the sources) translates a driver error into one of the application
    error kinds not-found, bad-request, internal; errors that already are
    of an application kind are kept. *)
Definition Convert (ctx : context) (e : err) : err :=
  match e with
  | EDriver ErrNoRows => ENotFound
  | EDriver _ => EInternal "database error"
  | ENotFound | EBadRequest _ | EInternal _ => e
  | ECtx _ | EUser _ => EInternal "error"
  end.

(** [DAO.WithTX].  [br], [cr], [rr] are the driver's answers to Begin,
    Commit and Rollback; [fn] runs against the shared world. *)
Definition WithTX (ctx : context) (br cr rr : option drv_err)
    (fn : context -> M (option err)) : M (option err) :=
  cur ← Tx;
  match cur with
  | Some _ => fn ctx
  | None =>
      _ ← WithContextM ctx;
      r ← StartTx br;
      match r with
      | (_, Some e) => mret (Some (Convert ctx e))
      | (tx, None) =>
          ferr ← fn (newTxContext ctx tx);
          c1 ← ctx_Err ctx;
          if bool_decide (is_Some ferr) || bool_decide (is_Some c1) then
            _ ← Rollback rr;            (* its error is only logged *)
            c2 ← ctx_Err ctx;
            match c2 with
            | Some ce => mret (Some ce)
            | None => mret ferr
            end
          else
            ce ← Commit cr;
            match ce with
            | Some e => mret (Some (Convert ctx e))
            | None => mret None
            end
      end
  end.

(** The transaction operations of a [Client], with the driver's answers. *)
Inductive tx_op :=
| OStartTx (br : option drv_err)
| OCommit (cr : option drv_err)
| ORollback (rr : option drv_err).

Definition step (op : tx_op) : M unit :=
  match op with
  | OStartTx br => _ ← StartTx br; mret tt
  | OCommit cr => _ ← Commit cr; mret tt
  | ORollback rr => _ ← Rollback rr; mret tt
  end.

Fixpoint run_ops (ops : list tx_op) : M unit :=
  match ops with
  | [] => mret tt
  | op :: ops' => _ ← step op; run_ops ops'
  end.

(** A transaction is active when it was begun and neither committed nor
    rolled back. *)
Definition active (l : list event) (t : nat) : Prop :=
  (EvBegin t ∈ l) ∧ (EvCommit t ∉ l) ∧ (EvRollback t ∉ l).

Definition init_world (conn : nat) : world :=
  {| client := NewDbClient conn []; next_tx := 0; log := []; cancels := [] |}.

(** Every active transaction is the one stored in the client. *)
Definition slot_tracks (w : world) : Prop :=
  ∀ t, active (log w) t → w_tx (client w) = Some t.

(** [StartTx] is only issued while the client stores no transaction. *)
Fixpoint guarded (ops : list tx_op) (w : world) : Prop :=
  match ops with
  | [] => True
  | op :: ops' =>
      (match op with OStartTx _ => w_tx (client w) = None | _ => True end) ∧
      match step op w with
      | Some (_, w1) => guarded ops' w1
      | None => True
      end
  end.

(* ------------------------------------------------------------------ *)
(** ** Upsert and GetUniqueModels *)

Section Upsert.
Context {A : Type}.

(** [GetUniqueModels]: [rows[f(model)] = model] for each element, then the
    map's values.  Go ranges over a map in an unspecified order; the list
    below is one such order and every statement made about it is
    independent of the order. *)
Definition GetUniqueModels (models : list A) (f : A -> string) : list A :=
  let rows := foldl (fun (rows : gmap string A) m => <[f m := m]> rows) ∅ models in
  (map_to_list rows).*2.

(** The key closure of [DAO.Upsert]: the rendered key fields joined by "_";
    [render m g] is [fmt.Sprint] of field [g] of [m]. *)
Definition upsert_key (goNames : list string) (render : A -> string -> string) (m : A) : string :=
  String.concat "_" (map (render m) goNames).

(** [t.FieldsMap[key].GoName] for every key; [None] when a key has no
    field (the nil [*Field] is dereferenced: a panic).  [tbl] is [None]
    when [getType(recs)] is not a struct type: [orm.GetTable] panics on
    such a type (and on the nil type), so it never returns nil and the
    [t != nil] test always holds. *)
Definition goNames_of (tbl : option (gmap string string)) (keys : list string)
    : option (list string) :=
  match tbl with
  | None => None
  | Some fields => mapM (fun k => fields !! k) keys
  end.

(** The [recs] argument by reflect kind. *)
Inductive recs_arg :=
| RSlice (xs : list A)
| RPtr (x : A)
| ROther.

Record upsert_out := {
  up_err : option err;               (* the returned error *)
  up_inserted : option (list A)      (* the rows handed to q.Insert(), if run *)
}.

Definition up_return (e : err) : upsert_out := {| up_err := Some e; up_inserted := None |}.

(** [DAO.Upsert]: [tbl] is [orm.GetTable(getType(recs))]'s field map
    ([None]: [getType(recs)] is no struct type, and [GetTable] panics),
    [ins] the error of [q.Insert()]; [None] is a panic.  [ROther] is a
    [recs] that is neither a slice nor a pointer: a struct value (with
    [tbl = Some _]) or a value of another kind ([tbl = None]). *)
Definition Upsert (tbl : option (gmap string string)) (render : A -> string -> string)
    (recs : recs_arg) (keys columns : list string) (ins : option drv_err)
    : option upsert_out :=
  match keys with
  | [] => Some (up_return (EBadRequest "keys cannot be empty"))
  | _ =>
      (* getType indexes s.Index(0): an empty slice panics *)
      match recs with RSlice [] => None | _ =>
      match goNames_of tbl keys with
      | None => None
      | Some goNames =>
          let models :=
            match recs with
            | RSlice xs => Some (GetUniqueModels xs (upsert_key goNames render))
            | RPtr x => Some [x]
            | ROther => None
            end in
          match models with
          | None => Some (up_return (EBadRequest "recs must be slice or pointer to struct"))
          | Some [] => Some (up_return (EBadRequest "models cannot be empty"))
          | Some ms => Some {| up_err := EDriver <$> ins; up_inserted := Some ms |}
          end
      end
      end
  end.

(** The rows keep, for every key occurring in [recs], exactly one element:
    the last one of [recs] with that key. *)
Definition keeps_last_per_key (key : A -> string) (recs rows : list A) : Prop :=
  NoDup (key <$> rows) ∧
  (∀ x, x ∈ rows → last (filter (fun y => key y = key x) recs) = Some x) ∧
  (∀ y, y ∈ recs → ∃ x, x ∈ rows ∧ key x = key y).

End Upsert.
Arguments recs_arg : clear implicits.
Arguments upsert_out : clear implicits.

(** The error path shared by [FindOne], [FindList], [Insert], [HardDelete],
    ...: the driver's error [res] is returned through [pkgerr.Convert]. *)
Definition FindOne (ctx : context) (res : option drv_err) : option err :=
  match res with
  | Some e => Some (Convert ctx (EDriver e))
  | None => None
  end.

(** A row type for concrete runs: (address, name). *)
Definition agent : Type := (string * string)%type.

Definition agent_render (m : agent) (goName : string) : string :=
  if String.eqb goName "Name" then m.2 else "".

Definition agent_table : gmap string string := {[ "name" := "Name" ]}.

(* ------------------------------------------------------------------ *)
(** ** ExecOne / QueryOne *)

(** An [orm.Result]: only its [RowsAffected()] (a Go [int]) matters. *)
Record orm_result := { RowsAffected : Z }.

(** [dbWrapper.assertOneRow]. *)
Definition assertOneRow (affected : Z) : option drv_err :=
  if Z.eqb affected 0 then Some ErrNoRows
  else if Z.gtb affected 1 then Some ErrMultiRows
  else None.

(** [dbWrapper.ExecOne], given the outcome of [w.Exec(query, params...)]. *)
Definition ExecOne (exec : drv_err + orm_result) : option orm_result * option drv_err :=
  match exec with
  | inl e => (None, Some e)
  | inr res =>
      match assertOneRow (RowsAffected res) with
      | Some e => (None, Some e)
      | None => (Some res, None)
      end
  end.

(** [dbWrapper.QueryOne], given the outcome of [w.Query(model, query, params...)]. *)
Definition QueryOne (query : drv_err + orm_result) : option orm_result * option drv_err :=
  match query with
  | inl e => (None, Some e)
  | inr res =>
      match assertOneRow (RowsAffected res) with
      | Some e => (None, Some e)
      | None => (Some res, None)
      end
  end.

(* ------------------------------------------------------------------ *)
(** ** UpdateWhere *)

(** The dynamic values passed in [setFieldValuePairs ...interface{}]. *)
Inductive goval :=
| GStr (s : string)
| GInt (z : Z)
| GTime (t : Z)
| GNil.

Definition is_str (v : goval) : bool :=
  match v with GStr _ => true | _ => false end.

(** What [UpdateWhere] does: return an error before [q.Update()] runs,
    run [q.Update()] with the [Set] clauses (column, value), or panic. *)
Inductive uw_outcome :=
| UWReturn (e : err)
| UWExec (sets : list (string * goval)) (res : option err)
| UWPanic.

(** The loop [for i := 0; i < len(pairs); i += 2]: [pairs[i].(string)]
    or return an internal error, then [q.Set(column+" = ?", pairs[i+1])]
    (a missing [pairs[i+1]] is an index panic, [None]). *)
Fixpoint uw_loop (pairs : list goval) (acc : list (string * goval))
    : option (err + list (string * goval)) :=
  match pairs with
  | [] => Some (inr acc)
  | GStr column :: rest =>
      match rest with
      | v :: rest' => uw_loop rest' (acc ++ [(column, v)])
      | [] => None
      end
  | _ :: _ => Some (inl (EInternal "UpdateWhere: field must be string"))
  end.

(** [DAO.UpdateWhere]; [now] is [time.Now()], [ures] the error of
    [q.Update()]. *)
Definition UpdateWhere (r : DAO) (ctx : context) (now : Z) (pairs : list goval)
    (ures : option drv_err) : uw_outcome :=
  if negb (Nat.eqb (Nat.land (length pairs) 1) 0) then
    UWReturn (EInternal "UpdateWhere: setFieldValuePairs must be even")
  else
    let pairs' := pairs ++ [GStr (updatedField r); GTime now] in
    match uw_loop pairs' [] with
    | None => UWPanic
    | Some (inl e) => UWReturn e
    | Some (inr sets) => UWExec sets (Convert ctx ∘ EDriver <$> ures)
    end.

(* ------------------------------------------------------------------ *)
(** ** The migrator (package [migrate]) *)

Module Migrate.

(** [strings.TrimPrefix]. *)
Definition TrimPrefix (s prefix : string) : string :=
  if String.prefix prefix s
  then substring (String.length prefix) (String.length s - String.length prefix) s
  else s.

Definition driverName : string := "postgres".

Record Migrator := {
  path : string;
  dsn : string;
  cleanScheme : list string;
  logger : nat                   (* the *zap.Logger; 0 is zap.NewNop() *)
}.

(** [OptionFn]s of the package. *)
Inductive OptionFn :=
| WithClean (scheme : list string)
| WithLogger (l : nat).

Definition apply_opt (m : Migrator) (o : OptionFn) : Migrator :=
  match o with
  | WithClean scheme =>
      {| path := path m; dsn := dsn m; cleanScheme := scheme; logger := logger m |}
  | WithLogger l =>
      {| path := path m; dsn := dsn m; cleanScheme := cleanScheme m; logger := l |}
  end.

(** [NewMigrator]. *)
Definition NewMigrator (p d : string) (options : list OptionFn) : Migrator :=
  foldl apply_opt
    {| path := String.append "file://" (TrimPrefix (TrimPrefix p ".") "/");
       dsn := d; cleanScheme := []; logger := 0 |}
    options.

(** Calls [Run] makes to [database/sql] and the migration engine. *)
Inductive ext_call :=
| XOpen (driver source : string)                 (* sql.Open *)
| XQuery (q : string)                            (* db.Query *)
| XWithInstance                                  (* postgres.WithInstance *)
| XNewWithDatabaseInstance (source driver : string)
| XVersion
| XUp.

(** The answers of the outside world: the error of each call, the
    result of each [Version()] call (0 before, 1 after) and of [Up()]. *)
Inductive up_result := UpOk | UpNoChange | UpErr (e : err).

Record engine := {
  fails : ext_call -> option err;
  version : nat -> nat * bool * option err;
  up : up_result
}.

(** [cleanDatabase] for each scheme, stopping at the first error. *)
Fixpoint clean_all (o : engine) (schemes : list string) : list ext_call * option err :=
  match schemes with
  | [] => ([], None)
  | sc :: rest =>
      let drop := XQuery (String.append "DROP SCHEMA " (String.append sc " CASCADE")) in
      match fails o drop with
      | Some e => ([drop], Some e)
      | None =>
          let create := XQuery (String.append "CREATE SCHEMA " sc) in
          match fails o create with
          | Some e => ([drop; create], Some e)
          | None => let '(tr, r) := clean_all o rest in (drop :: create :: tr, r)
          end
      end
  end.

(** [Migrator.Run]: the calls made, in order, and the returned error
    (logging and the deferred [db.Close()] are left out). *)
Definition Run (m : Migrator) (o : engine) : list ext_call * option err :=
  let op := XOpen driverName (dsn m) in
  match fails o op with
  | Some e => ([op], Some e)
  | None =>
      let '(tc, rc) := clean_all o (cleanScheme m) in
      match rc with
      | Some e => (op :: tc, Some e)
      | None =>
          match fails o XWithInstance with
          | Some e => (op :: tc ++ [XWithInstance], Some e)
          | None =>
              let nw := XNewWithDatabaseInstance (path m) driverName in
              let pre := op :: tc ++ [XWithInstance; nw] in
              match fails o nw with
              | Some e => (pre, Some e)
              | None =>
                  let '(before, _, verr) := version o 0 in
                  if bool_decide (is_Some verr) && negb (Nat.eqb before 0) then
                    (pre ++ [XVersion], verr)
                  else
                    match up o with
                    | UpErr e' => (pre ++ [XVersion; XUp], Some e')
                    | _ =>                        (* nil or ErrNoChange *)
                        let '(_, _, verr2) := version o 1 in
                        if bool_decide (is_Some verr2) && negb (Nat.eqb before 0)
                        then (pre ++ [XVersion; XUp; XVersion], verr2)
                        else (pre ++ [XVersion; XUp; XVersion], None)
                    end
              end
          end
      end
  end.

(** Spec reading of the source path: drop one leading [c] if present. *)
Definition drop_lead (c : ascii) (s : string) : string :=
  match s with
  | EmptyString => s
  | String c' r => if Ascii.eqb c c' then r else s
  end.

(** A call hands the migrator's DSN to [sql.Open] and its source to the
    engine. *)
Definition handed_ok (m : Migrator) (c : ext_call) : Prop :=
  match c with
  | XOpen d s => d = driverName ∧ s = dsn m
  | XNewWithDatabaseInstance src d => src = path m ∧ d = driverName
  | _ => True
  end.

End Migrate.

(* ------------------------------------------------------------------ *)
(** ** Client pass-through *)

(** A handle of the wrapped ORM: the pooled [*pg.DB] or a [*pg.Tx]. *)
Inductive handle :=
| HConn (conn : nat)
| HTx (tx : nat).

(** The go-pg API the wrapper calls, common to [*pg.DB] and [*pg.Tx]
    (with the query builder [orm.Query] and the [QueryFormatter]). *)
Record ORM := {
  Model_t : Type; Query_t : Type; QArg : Type; Param : Type; Result : Type;
  Reader : Type; Writer : Type; Bytes : Type; Formatter_t : Type; Ctx : Type;
  h_Model : handle -> list Model_t -> Query_t;
  q_WherePK : Query_t -> Query_t;
  q_Select : Query_t -> option err;
  q_Insert : Query_t -> Result * option err;
  q_Update : Query_t -> Result * option err;
  q_Delete : Query_t -> Result * option err;
  q_ForceDelete : Query_t -> Result * option err;
  h_Exec : handle -> QArg -> list Param -> Result * option err;
  h_Query : handle -> Model_t -> QArg -> list Param -> Result * option err;
  h_CopyFrom : handle -> Reader -> QArg -> list Param -> Result * option err;
  h_CopyTo : handle -> Writer -> QArg -> list Param -> Result * option err;
  h_Formatter : handle -> Formatter_t;
  f_FormatQuery : Formatter_t -> Bytes -> string -> list Param -> Bytes;
  h_Context : handle -> Ctx;
  h_ModelContext : handle -> Ctx -> list Model_t -> Query_t;
  h_ExecContext : handle -> Ctx -> QArg -> list Param -> Result * option err;
  h_ExecOneContext : handle -> Ctx -> QArg -> list Param -> Result * option err;
  h_QueryContext : handle -> Ctx -> Model_t -> QArg -> list Param -> Result * option err;
  h_QueryOneContext : handle -> Ctx -> Model_t -> QArg -> list Param -> Result * option err;
  (* a wrappedProcessor (by its identity) and [w.queryString] *)
  run_processor : nat -> Ctx -> (unit -> Result * option err) -> string -> option Model_t ->
                  Result * option err;
  queryString : QArg -> string
}.

(** The [Client] methods covered, with their arguments. *)
Inductive client_op (o : ORM) :=
| OpSelect (m : Model_t o)
| OpInsert (ms : list (Model_t o))
| OpUpdate (m : Model_t o)
| OpDelete (m : Model_t o)
| OpForceDelete (m : Model_t o)
| OpExec (q : QArg o) (ps : list (Param o))
| OpQuery (m : Model_t o) (q : QArg o) (ps : list (Param o))
| OpCopyFrom (r : Reader o) (q : QArg o) (ps : list (Param o))
| OpCopyTo (wr : Writer o) (q : QArg o) (ps : list (Param o))
| OpFormatQuery (b : Bytes o) (q : string) (ps : list (Param o))
| OpFormatter
| OpContext
| OpModelContext (c : Ctx o) (ms : list (Model_t o))
| OpExecContext (c : Ctx o) (q : QArg o) (ps : list (Param o))
| OpExecOneContext (c : Ctx o) (q : QArg o) (ps : list (Param o))
| OpQueryContext (c : Ctx o) (m : Model_t o) (q : QArg o) (ps : list (Param o))
| OpQueryOneContext (c : Ctx o) (m : Model_t o) (q : QArg o) (ps : list (Param o)).
Arguments OpSelect {o}. Arguments OpInsert {o}. Arguments OpUpdate {o}.
Arguments OpDelete {o}. Arguments OpForceDelete {o}. Arguments OpExec {o}.
Arguments OpQuery {o}. Arguments OpCopyFrom {o}. Arguments OpCopyTo {o}.
Arguments OpFormatQuery {o}. Arguments OpFormatter {o}. Arguments OpContext {o}.
Arguments OpModelContext {o}. Arguments OpExecContext {o}.
Arguments OpExecOneContext {o}. Arguments OpQueryContext {o}.
Arguments OpQueryOneContext {o}.

Inductive op_result (o : ORM) :=
| RErr (e : option err)
| RRes (r : Result o * option err)
| RBytes (b : Bytes o)
| RFormatter (f : Formatter_t o)
| RCtx (c : Ctx o)
| RQuery (q : Query_t o).
Arguments RErr {o}. Arguments RRes {o}. Arguments RBytes {o}.
Arguments RFormatter {o}. Arguments RCtx {o}. Arguments RQuery {o}.

(** The [dbWrapper] methods, each as written in [wrapper.go]. *)
Definition client_call (o : ORM) (w : dbWrapper) (op : client_op o) : op_result o :=
  let conn := HConn (w_conn w) in
  match op with
  | OpSelect m => RErr
      match w_tx w with
      | Some t => q_Select o (q_WherePK o (h_Model o (HTx t) [m]))
      | None => q_Select o (q_WherePK o (h_Model o conn [m]))
      end
  | OpInsert ms => RErr
      match w_tx w with
      | Some t => (q_Insert o (h_Model o (HTx t) ms)).2
      | None => (q_Insert o (h_Model o conn ms)).2
      end
  | OpUpdate m => RErr
      match w_tx w with
      | Some t => (q_Update o (q_WherePK o (h_Model o (HTx t) [m]))).2
      | None => (q_Update o (q_WherePK o (h_Model o conn [m]))).2
      end
  | OpDelete m => RErr
      match w_tx w with
      | Some t => (q_Delete o (q_WherePK o (h_Model o (HTx t) [m]))).2
      | None => (q_Delete o (q_WherePK o (h_Model o conn [m]))).2
      end
  | OpForceDelete m => RErr
      match w_tx w with
      | Some t => (q_ForceDelete o (q_WherePK o (h_Model o (HTx t) [m]))).2
      | None => (q_ForceDelete o (q_WherePK o (h_Model o conn [m]))).2
      end
  | OpExec q ps =>
      let processor := fun _ : unit =>
        match w_tx w with
        | Some t => h_Exec o (HTx t) q ps
        | None => h_Exec o conn q ps
        end in
      RRes match w_wrapped w with
           | None => processor tt
           | Some p => run_processor o p (h_Context o conn) processor (queryString o q) None
           end
  | OpQuery m q ps =>
      let processor := fun _ : unit =>
        match w_tx w with
        | Some t => h_Query o (HTx t) m q ps
        | None => h_Query o conn m q ps
        end in
      RRes match w_wrapped w with
           | None => processor tt
           | Some p => run_processor o p (h_Context o conn) processor (queryString o q) (Some m)
           end
  | OpCopyFrom r q ps => RRes
      match w_tx w with
      | Some t => h_CopyFrom o (HTx t) r q ps
      | None => h_CopyFrom o conn r q ps
      end
  | OpCopyTo wr q ps => RRes
      match w_tx w with
      | Some t => h_CopyTo o (HTx t) wr q ps
      | None => h_CopyTo o conn wr q ps
      end
  | OpFormatQuery b q ps => RBytes
      match w_tx w with
      | Some t => f_FormatQuery o (h_Formatter o (HTx t)) b q ps
      | None => f_FormatQuery o (h_Formatter o conn) b q ps
      end
  | OpFormatter => RFormatter
      match w_tx w with
      | Some t => h_Formatter o (HTx t)
      | None => h_Formatter o conn
      end
  | OpContext => RCtx
      match w_tx w with
      | Some t => h_Context o (HTx t)
      | None => h_Context o conn
      end
  | OpModelContext c ms => RQuery
      match w_tx w with
      | Some t => h_ModelContext o (HTx t) c ms
      | None => h_ModelContext o conn c ms
      end
  | OpExecContext c q ps => RRes
      match w_tx w with
      | Some t => h_ExecContext o (HTx t) c q ps
      | None => h_ExecContext o conn c q ps
      end
  | OpExecOneContext c q ps => RRes
      match w_tx w with
      | Some t => h_ExecOneContext o (HTx t) c q ps
      | None => h_ExecOneContext o conn c q ps
      end
  | OpQueryContext c m q ps => RRes
      match w_tx w with
      | Some t => h_QueryContext o (HTx t) c m q ps
      | None => h_QueryContext o conn c m q ps
      end
  | OpQueryOneContext c m q ps => RRes
      match w_tx w with
      | Some t => h_QueryOneContext o (HTx t) c m q ps
      | None => h_QueryOneContext o conn c m q ps
      end
  end.

(** Spec side: the handle a pass-through client uses ... *)
Definition active_handle (w : dbWrapper) : handle :=
  match w_tx w with
  | Some t => HTx t
  | None => HConn (w_conn w)
  end.

(** ... and the ORM call each method names, on that handle, with the
    method's own arguments (the model methods are the ORM's by-primary-key
    query calls). *)
Definition forward (o : ORM) (h : handle) (op : client_op o) : op_result o :=
  match op with
  | OpSelect m => RErr (q_Select o (q_WherePK o (h_Model o h [m])))
  | OpInsert ms => RErr (q_Insert o (h_Model o h ms)).2
  | OpUpdate m => RErr (q_Update o (q_WherePK o (h_Model o h [m]))).2
  | OpDelete m => RErr (q_Delete o (q_WherePK o (h_Model o h [m]))).2
  | OpForceDelete m => RErr (q_ForceDelete o (q_WherePK o (h_Model o h [m]))).2
  | OpExec q ps => RRes (h_Exec o h q ps)
  | OpQuery m q ps => RRes (h_Query o h m q ps)
  | OpCopyFrom r q ps => RRes (h_CopyFrom o h r q ps)
  | OpCopyTo wr q ps => RRes (h_CopyTo o h wr q ps)
  | OpFormatQuery b q ps => RBytes (f_FormatQuery o (h_Formatter o h) b q ps)
  | OpFormatter => RFormatter (h_Formatter o h)
  | OpContext => RCtx (h_Context o h)
  | OpModelContext c ms => RQuery (h_ModelContext o h c ms)
  | OpExecContext c q ps => RRes (h_ExecContext o h c q ps)
  | OpExecOneContext c q ps => RRes (h_ExecOneContext o h c q ps)
  | OpQueryContext c m q ps => RRes (h_QueryContext o h c m q ps)
  | OpQueryOneContext c m q ps => RRes (h_QueryOneContext o h c m q ps)
  end.

(** The clients the package can produce: [NewDbClient] with the package's
    options, then [WithContext] and the transaction-slot updates of
    [StartTx], [Commit] and [Rollback]. *)
Inductive reachable : dbWrapper -> Prop :=
| reach_new conn opts : reachable (NewDbClient conn opts)
| reach_ctx w c : reachable w -> reachable (WithContext w c)
| reach_tx w tx : reachable w -> reachable (set_w_tx w tx).

(** An ORM whose every call answers with its own name, for concrete runs. *)
Definition toy_orm : ORM := {|
  Model_t := nat; Query_t := list string; QArg := string; Param := nat; Result := string;
  Reader := unit; Writer := unit; Bytes := string; Formatter_t := handle; Ctx := handle;
  h_Model := fun h _ => [match h with HConn _ => "conn" | HTx _ => "tx" end];
  q_WherePK := fun q => "wherepk" :: q;
  q_Select := fun _ => None;
  q_Insert := fun q => (String.concat " " q, None);
  q_Update := fun q => (String.concat " " q, None);
  q_Delete := fun q => (String.concat " " q, None);
  q_ForceDelete := fun q => (String.concat " " q, None);
  h_Exec := fun _ q _ => (q, None);
  h_Query := fun _ _ q _ => (q, None);
  h_CopyFrom := fun _ _ q _ => (q, None);
  h_CopyTo := fun _ _ q _ => (q, None);
  h_Formatter := fun h => h;
  f_FormatQuery := fun _ b q _ => String.append b q;
  h_Context := fun h => h;
  h_ModelContext := fun _ _ _ => [];
  h_ExecContext := fun _ _ q _ => (q, None);
  h_ExecOneContext := fun _ _ q _ => (q, None);
  h_QueryContext := fun _ _ _ q _ => (q, None);
  h_QueryOneContext := fun _ _ _ q _ => (q, None);
  run_processor := fun _ _ p _ _ => p tt;
  queryString := fun q => q
|}.

(** A callback that runs no query and succeeds. *)
Definition noop_fn : context -> M (option err) := fun _ => mret None.

(* ------------------------------------------------------------------ *)
(** ** A DAO call on the shared client *)

(** [DAO.Insert]: [r.db.WithContext(ctx).Insert(rec...)] on the shared
    client (the wrapper's [Insert] runs on [w.tx] when it is set, else on
    the pool), its error passed through [pkgerr.Convert].  [ins h] is the
    driver's answer to the insert run on handle [h]. *)
Definition DAO_Insert (ctx : context) (ins : handle -> option drv_err) : M (option err) :=
  _ ← WithContextM ctx;
  c ← get_client;
  let e := match w_tx c with
           | Some t => ins (HTx t)
           | None => ins (HConn (w_conn c))
           end in
  mret (Convert ctx ∘ EDriver <$> e).

(* ------------------------------------------------------------------ *)
(** ** The slow-query logger ([dbLogger]) *)

Inductive level := InfoLevel | WarnLevel.

(** Values in a query event's [Stash]. *)
Inductive stash_val :=
| SVTime (t : Z)                 (* a time.Time, in nanoseconds *)
| SVOther (n : nat).             (* a value of any other type *)

(** A [*pg.QueryEvent]: its [Stash] (nil = [None]; the string-keyed
    entries), the result of [FormattedQuery()] ([None] when it fails) and
    the text of [Err] (nil = [None]). *)
Record query_event := {
  Stash : option (gmap string stash_val);
  FormattedQuery : option string;
  Err : option string
}.

Record dbLogger := { dl_logger : nat; dl_duration : Z }.

(** [newDBLogger]. *)
Definition newDBLogger (logger : nat) (duration : Z) : dbLogger :=
  {| dl_logger := logger; dl_duration := duration |}.

Definition queryStartTime : string := "StartTime".

(** [time.Duration] bounds and [t.Sub(u)], which saturates at them. *)
Definition minDuration : Z := (- 2 ^ 63)%Z.
Definition maxDuration : Z := (2 ^ 63 - 1)%Z.
Definition time_Sub (t u : Z) : Z := Z.max minDuration (Z.min maxDuration (t - u)).

(** [dbLogger.BeforeQuery] at time [now] (it returns [ctx] and nil). *)
Definition BeforeQuery (d : dbLogger) (now : Z) (e : query_event) : query_event :=
  let st := match Stash e with Some s => s | None => ∅ end in
  {| Stash := Some (<[queryStartTime := SVTime now]> st);
     FormattedQuery := FormattedQuery e; Err := Err e |}.

(** [fmt.Sprintf("%d", z)]. *)
Fixpoint utoa (fuel : nat) (n : N) (acc : string) : string :=
  match fuel with
  | O => acc
  | S f =>
      let acc := String (Ascii.ascii_of_N (48 + N.modulo n 10)) acc in
      if N.ltb n 10 then acc else utoa f (N.div n 10) acc
  end.

Definition itoa (z : Z) : string :=
  match z with
  | Z0 => "0"
  | Zpos p => utoa (Pos.size_nat p) (Npos p) ""
  | Zneg p => String "-" (utoa (Pos.size_nat p) (Npos p) "")
  end.

Definition newline : string := String (Ascii.ascii_of_nat 10) EmptyString.

(** [dbLogger.AfterQuery] at time [now]: the entry handed to
    [d.logger.Log] ([None] when nothing is logged); the outer [None] is the
    panic of [v.(time.Time)] on a stash value of another type.  It returns
    nil on every path. *)
Definition AfterQuery (d : dbLogger) (now : Z) (e : query_event)
    : option (option (level * string)) :=
  match FormattedQuery e with
  | None => Some None
  | Some query =>
      let dur :=
        match Stash e with
        | None => Some 0%Z
        | Some st =>
            match st !! queryStartTime with
            | None => Some 0%Z
            | Some (SVTime v) => Some (time_Sub now v)
            | Some (SVOther _) => None
            end
        end in
      match dur with
      | None => None
      | Some duration =>
          let lvl := if Z.eqb (dl_duration d) 0 then Some InfoLevel
                     else if Z.gtb (dl_duration d) duration then None
                     else Some WarnLevel in
          match lvl with
          | None => Some None
          | Some logLevel =>
              let txt := String.append "query: " query in
              let txt := if Z.eqb duration 0 then txt
                         else String.append txt
                                (String.append " ["
                                   (String.append (itoa (Z.quot duration 1000000)) " ms]")) in
              let txt := match Err e with
                         | Some m => String.append txt
                                       (String.append newline (String.append "error: " m))
                         | None => txt
                         end in
              Some (Some (logLevel, txt))
          end
      end
  end.

(* ------------------------------------------------------------------ *)
(** ** Connecting ([Connect], [ConnectWithDSN]) *)

(** The hook stored in [cfg.OnConnect]: the caller's, or [onConnect]. *)
Inductive conn_hook :=
| UserHook (id : nat)
| onConnect (appName : string).

(** The [*pg.Options] fields used here. *)
Record pg_options := { OnConnect : option conn_hook; Database : string }.

(** [Connect]; [pgConnect] is [pg.Connect], the pool opened for a
    configuration.  Go updates [*cfg] in place: the configuration after
    the call is returned with the client. *)
Definition Connect (AppName : string) (cfg : pg_options) (options : list Option)
    (pgConnect : pg_options -> nat) : pg_options * dbWrapper :=
  let cfg := match OnConnect cfg with
             | None => {| OnConnect := Some (onConnect AppName); Database := Database cfg |}
             | Some _ => cfg
             end in
  (cfg, NewDbClient (pgConnect cfg) options).

(** [ConnectWithDSN]: [ParseURL] is [pg.ParseURL]; [probe] is the outcome
    of the [Exec("select 1")] that [client.ExecOne] runs (a new client has
    no transaction and no wrapped processor, so it runs on the pool). *)
Definition ConnectWithDSN (appName dsn : string) (options : list Option)
    (ParseURL : string -> err + pg_options) (pgConnect : pg_options -> nat)
    (probe : drv_err + orm_result) : option dbWrapper * option err :=
  match ParseURL dsn with
  | inl e => (None, Some e)
  | inr cfg =>
      let client := (Connect appName cfg options pgConnect).2 in
      match ExecOne probe with
      | (_, Some e) => (None, Some (EDriver e))
      | (_, None) => (Some client, None)
      end
  end.

(** The queries issued for one scheme by [cleanDatabase]. *)
Definition clean_queries (sc : string) : list Migrate.ext_call :=
  [Migrate.XQuery (String.append "DROP SCHEMA " (String.append sc " CASCADE"));
   Migrate.XQuery (String.append "CREATE SCHEMA " sc)].

(* ================================================================== *)
(** * Theorems *)

Example getTx_background : getTxFromContext Background = None.
Proof. reflexivity. Qed.

(** ** Helper lemmas on the monad *)

Lemma bind_some {A B} (m : M A) (k : A -> M B) w a w1 :
  m w = Some (a, w1) -> (mbind k m) w = k a w1.
Proof. intros H. unfold mbind, M_bind. by rewrite H. Qed.

(** C10: [SetUpdatedField ""] and [SetDeletedField ""] leave the DAO as it
    is ([New] starts with "updated" and "deleted"); a non-empty name
    replaces only its own field, keeping the other name and the client. *)
Theorem SetField_empty_is_noop (r : DAO) (db : nat) (f : string) :
  SetUpdatedField r "" = r ∧ SetDeletedField r "" = r ∧
  updatedField (New db) = "updated" ∧ deletedField (New db) = "deleted" ∧
  (f ≠ "" →
     updatedField (SetUpdatedField r f) = f ∧
     deletedField (SetUpdatedField r f) = deletedField r ∧
     dao_db (SetUpdatedField r f) = dao_db r ∧
     deletedField (SetDeletedField r f) = f ∧
     updatedField (SetDeletedField r f) = updatedField r ∧
     dao_db (SetDeletedField r f) = dao_db r).
Proof.
  do 4 (split; [reflexivity|]).
  intros Hf. unfold SetUpdatedField, SetDeletedField.
  destruct (String.eqb_spec f ""); [contradiction|]. repeat split.
Qed.

(** C5: reading back a transaction stored by [newTxContext] gives it back,
    also through [WithContext]; a context without a value under [TxKey]
    makes [WithContext] clear the active transaction. *)
Theorem tx_context_roundtrip (w : dbWrapper) (ctx : context) (tx : option nat) :
  getTxFromContext (newTxContext ctx tx) = tx ∧
  w_tx (WithContext w (newTxContext ctx tx)) = tx ∧
  (ctx_value ctx TxKey = None → w_tx (WithContext w ctx) = None).
Proof.
  split; [reflexivity|]. split; [reflexivity|].
  intros H. simpl. unfold getTxFromContext. by rewrite H.
Qed.

(** C4 (counterexample): two successful [StartTx] calls on one client
    leave two begun transactions neither committed nor rolled back. *)
Lemma two_active_after_two_starts :
  ∃ w, run_ops [OStartTx None; OStartTx None] (init_world 7) = Some (tt, w) ∧
       active (log w) 0 ∧ active (log w) 1.
Proof.
  eexists. split; [reflexivity|].
  unfold active; simpl; split; (split; [set_solver|]); split; set_solver.
Qed.

Ltac unfold_M :=
  unfold mbind, M_bind, mret, M_ret, get_client, put_client, emit, panic in *.

(** C2 (counterexample): [fn] returns nil and the context is never
    cancelled, yet the new transaction is neither committed nor rolled
    back: [fn]'s DAO call uses a context without a transaction, which
    clears the client's slot, and [WithTX] panics in [Commit]. *)
Lemma WithTX_foreign_context_panics :
  DAO_Insert Background (fun _ => None) (init_world 0) =
    Some (None, set_client (init_world 0) (WithContext (client (init_world 0)) Background)) ∧
  WithTX Background None None None (fun _ => DAO_Insert Background (fun _ => None))
    (init_world 0) = None.
Proof. split; reflexivity. Qed.

(** C2 (corrected): when [WithTX] starts a new transaction [t] (no
    transaction stored, Begin succeeds), it runs [fn] on a context carrying
    [t] and then ends the transaction stored in the client when [fn]
    returns ([t] itself whenever [fn] keeps it, as its DAO calls with the
    passed context do): it commits it exactly when [fn] returned nil and
    the context is not cancelled, returning the converted Commit error;
    otherwise it rolls it back and returns the context's error if it is
    cancelled, else [fn]'s error; the slot ends empty.  If [fn] leaves no
    transaction stored, [WithTX] panics. *)
Theorem WithTX_ends_stored_tx ctx cr rr fn w :
  w_tx (client w) = None →
  ∃ w1,
    log w1 = EvBegin (next_tx w) :: log w ∧
    w_tx (client w1) = Some (next_tx w) ∧
    cancels w1 = cancels w ∧
    match fn (newTxContext ctx (Some (next_tx w))) w1 with
    | None => WithTX ctx None cr rr fn w = None
    | Some (ferr, w2) =>
        match w_tx (client w2) with
        | None => WithTX ctx None cr rr fn w = None
        | Some t =>
            ∃ res w',
              WithTX ctx None cr rr fn w = Some (res, w') ∧
              w_tx (client w') = None ∧
              (ferr = None ∧ ctx_err (cancels w2) ctx = None →
                 log w' = EvCommit t :: log w2 ∧
                 res = Convert ctx <$> (EDriver <$> cr)) ∧
              (ferr ≠ None ∨ ctx_err (cancels w2) ctx ≠ None →
                 log w' = EvRollback t :: log w2 ∧
                 res = match ctx_err (cancels w2) ctx with
                       | Some ce => Some ce
                       | None => ferr
                       end)
        end
    end.
Proof.
  intros Hn.
  exists (set_client {| client := WithContext (client w) ctx; next_tx := S (next_tx w);
                        log := EvBegin (next_tx w) :: log w; cancels := cancels w |}
            (set_w_tx (WithContext (client w) ctx) (Some (next_tx w)))).
  split; [reflexivity|]. split; [reflexivity|]. split; [reflexivity|].
  unfold WithTX, Tx, WithContextM, StartTx, Begin, Rollback, Commit, ctx_Err. unfold_M.
  rewrite Hn. simpl.
  match goal with |- context [fn ?c ?w1] =>
    destruct (fn c w1) as [[ferr w2]|] eqn:Hf end; [|reflexivity].
  destruct (w_tx (client w2)) as [t|] eqn:Ht;
    destruct ferr as [fe|], (ctx_err (cancels w2) ctx) as [ce|] eqn:Hc; simpl;
    rewrite ?Ht; simpl; rewrite ?Hc; try reflexivity.
  all: try (destruct cr; simpl).
  all: eexists _, _; (split; [reflexivity|]); (split; [reflexivity|]);
    split; intros Hp;
    first [ split; reflexivity
          | exfalso; destruct Hp as [Hp|Hp]; congruence
          | exfalso; destruct Hp as [Hp Hp']; congruence ].
Qed.

Lemma WithTX_ends_stored_tx_witness :
  w_tx (client (init_world 0)) = None ∧
  ∃ w1,
    log w1 = [EvBegin 0%nat] ∧ w_tx (client w1) = Some 0%nat ∧ cancels w1 = [] ∧
    match DAO_Insert (newTxContext Background (Some 0%nat)) (fun _ => None) w1 with
    | None => WithTX Background None None None
                (fun c => DAO_Insert c (fun _ => None)) (init_world 0) = None
    | Some (ferr, w2) =>
        match w_tx (client w2) with
        | None => WithTX Background None None None
                    (fun c => DAO_Insert c (fun _ => None)) (init_world 0) = None
        | Some t =>
            ∃ res w',
              WithTX Background None None None
                (fun c => DAO_Insert c (fun _ => None)) (init_world 0) = Some (res, w') ∧
              w_tx (client w') = None ∧
              (ferr = None ∧ ctx_err (cancels w2) Background = None →
                 log w' = EvCommit t :: log w2 ∧
                 res = Convert Background <$> (EDriver <$> None)) ∧
              (ferr ≠ None ∨ ctx_err (cancels w2) Background ≠ None →
                 log w' = EvRollback t :: log w2 ∧
                 res = match ctx_err (cancels w2) Background with
                       | Some ce => Some ce
                       | None => ferr
                       end)
        end
    end.
Proof.
  split; [reflexivity|].
  exact (WithTX_ends_stored_tx Background None None (fun c => DAO_Insert c (fun _ => None))
           (init_world 0) eq_refl).
Defined.

Lemma step_slot_tracks op w w1 :
  slot_tracks w →
  (match op with OStartTx _ => w_tx (client w) = None | _ => True end) →
  step op w = Some (tt, w1) → slot_tracks w1.
Proof.
  intros Hs Hg Hst. unfold slot_tracks, active in *.
  destruct op as [[d|]|cr|rr]; unfold step, StartTx, Begin, Commit, Rollback in Hst; unfold_M;
    simpl in Hst.
  - injection Hst as <-. exact Hs.
  - injection Hst as <-. simpl. intros t' (Hb & Hc & Hr).
    destruct (decide (t' = next_tx w)) as [->|Hne]; [reflexivity|].
    assert (w_tx (client w) = Some t') by (apply Hs; set_solver). congruence.
  - destruct (w_tx (client w)) as [t|] eqn:Ht; [|discriminate].
    injection Hst as <-. simpl. intros t' (Hb & Hc & Hr).
    assert (t' ≠ t) by (intros ->; set_solver).
    assert (Some t = Some t') by (apply Hs; set_solver). congruence.
  - destruct (w_tx (client w)) as [t|] eqn:Ht; [|discriminate].
    injection Hst as <-. simpl. intros t' (Hb & Hc & Hr).
    assert (t' ≠ t) by (intros ->; set_solver).
    assert (Some t = Some t') by (apply Hs; set_solver). congruence.
Qed.

(** C4 (as amended): a client has one transaction slot.  Over sequences of
    StartTx / Commit / Rollback in which StartTx is only issued with an
    empty slot, every active transaction is the stored one; Commit and
    Rollback of a stored transaction end it and clear the slot whatever
    the driver answers; a StartTx on an occupied slot stores the new
    transaction without ending the old one; WithTX with a stored
    transaction runs [fn] directly. *)
Theorem client_tx_slot_discipline :
  (∀ ops w w', slot_tracks w → guarded ops w → run_ops ops w = Some (tt, w') →
     slot_tracks w') ∧
  (∀ w t cr, w_tx (client w) = Some t →
     ∃ w', Commit cr w = Some (EDriver <$> cr, w') ∧ w_tx (client w') = None ∧
           log w' = EvCommit t :: log w) ∧
  (∀ w t rr, w_tx (client w) = Some t →
     ∃ w', Rollback rr w = Some (EDriver <$> rr, w') ∧ w_tx (client w') = None ∧
           log w' = EvRollback t :: log w) ∧
  (∀ w t0, w_tx (client w) = Some t0 →
     ∃ w', StartTx None w = Some ((Some (next_tx w), None), w') ∧
           w_tx (client w') = Some (next_tx w) ∧ log w' = EvBegin (next_tx w) :: log w) ∧
  (∀ ctx br cr rr fn w t, w_tx (client w) = Some t →
     WithTX ctx br cr rr fn w = fn ctx w).
Proof.
  split; [|split; [|split; [|split]]].
  - induction ops as [|op ops IH]; intros w w' Hs Hg Hr.
    + injection Hr as <-. exact Hs.
    + simpl in Hr, Hg. destruct Hg as [Hg1 Hg2]. unfold_M.
      destruct (step op w) as [[[] w1]|] eqn:Hst; [|discriminate].
      eapply IH; [eapply step_slot_tracks; eauto | exact Hg2 | exact Hr].
  - intros w t cr Ht. unfold Commit; unfold_M. rewrite Ht. eexists. split; [reflexivity|]. split; reflexivity.
  - intros w t rr Ht. unfold Rollback; unfold_M. rewrite Ht. eexists. split; [reflexivity|]. split; reflexivity.
  - intros w t0 Ht. unfold StartTx, Begin; unfold_M. eexists. split; [reflexivity|]. split; reflexivity.
  - intros ctx br cr rr fn w t Ht. unfold WithTX, Tx; unfold_M. simpl. rewrite Ht. reflexivity.
Qed.

(** ** GetUniqueModels *)

Lemma foldl_insert_lookup {A} (f : A -> string) (xs : list A) (m0 : gmap string A) k :
  foldl (fun (rows : gmap string A) m => <[f m := m]> rows) m0 xs !! k =
  match last (filter (fun y => f y = k) xs) with
  | Some x => Some x
  | None => m0 !! k
  end.
Proof.
  revert m0. induction xs as [|a xs IH]; intros m0; simpl; [reflexivity|].
  rewrite IH, filter_cons.
  destruct (last (filter (fun y => f y = k) xs)) as [x|] eqn:Hl.
  - case_decide; rewrite ?last_cons, ?Hl; reflexivity.
  - case_decide as Hk; rewrite ?last_cons, ?Hl.
    + subst k. apply lookup_insert_eq.
    + rewrite lookup_insert_ne by congruence. reflexivity.
Qed.

Lemma GetUniqueModels_spec {A} (f : A -> string) (xs : list A) :
  keeps_last_per_key f xs (GetUniqueModels xs f).
Proof.
  unfold GetUniqueModels.
  set (m := foldl _ ∅ xs).
  assert (Hm : ∀ k, m !! k = last (filter (fun y => f y = k) xs)).
  { intros k. unfold m. rewrite foldl_insert_lookup.
    destruct (last _); reflexivity. }
  assert (Hkey : ∀ k x, m !! k = Some x → f x = k).
  { intros k x Hx. rewrite Hm in Hx. apply last_Some_elem_of in Hx.
    apply list_elem_of_filter in Hx. apply Hx. }
  assert (Hfst : f <$> (map_to_list m).*2 = (map_to_list m).*1).
  { rewrite <- list_fmap_compose. apply list_fmap_ext.
    intros i [k x] Hi. simpl. apply (Hkey k x), elem_of_map_to_list.
    eapply list_elem_of_lookup_2; eauto. }
  split; [|split].
  - rewrite Hfst. apply NoDup_fst_map_to_list.
  - intros x Hx. apply list_elem_of_fmap in Hx as [[k x'] [-> Hkx]].
    apply elem_of_map_to_list in Hkx. simpl.
    rewrite (Hkey _ _ Hkx), <- Hm. exact Hkx.
  - intros y Hy.
    destruct (m !! f y) as [x|] eqn:Hx.
    + exists x. split; [|exact (Hkey _ _ Hx)].
      apply list_elem_of_fmap. exists (f y, x). split; [reflexivity|].
      by apply elem_of_map_to_list.
    + exfalso. rewrite Hm in Hx.
      assert (y ∈ filter (fun z => f z = f y) xs) as Hin
        by (apply list_elem_of_filter; split; [reflexivity|exact Hy]).
      assert (Hne : filter (fun z => f z = f y) xs ≠ []) by (intros Hnil; rewrite Hnil in Hin; set_solver).
      apply last_is_Some in Hne. rewrite Hx in Hne. by destruct Hne.
Qed.

(** C1: whatever [Upsert] hands to the insert for a slice is the slice
    de-duplicated by the joined key string: one row per key, which is the
    last element of the slice with that key, and every key is kept. *)
Theorem Upsert_dedups_by_key {A} (tbl : option (gmap string string))
    (render : A -> string -> string) (recs : list A) (keys columns : list string)
    (ins : option drv_err) (out : upsert_out A) (rows : list A) :
  Upsert tbl render (RSlice recs) keys columns ins = Some out →
  up_inserted out = Some rows →
  ∃ goNames, goNames_of tbl keys = Some goNames ∧
             keeps_last_per_key (upsert_key goNames render) recs rows.
Proof.
  intros H Hr. unfold Upsert in H.
  destruct keys as [|k keys']; [injection H as <-; discriminate|].
  destruct recs as [|r recs']; [discriminate|].
  destruct (goNames_of tbl (k :: keys')) as [gn|] eqn:Hg; [|discriminate].
  exists gn. split; [reflexivity|].
  destruct (GetUniqueModels (r :: recs') (upsert_key gn render)) as [|u us] eqn:Hu.
  - injection H as <-. discriminate.
  - injection H as <-. simpl in Hr. injection Hr as <-. rewrite <- Hu.
    apply GetUniqueModels_spec.
Qed.

Lemma Upsert_dedups_by_key_witness :
  ∃ out rows,
    Upsert (Some agent_table) agent_render
      (RSlice [("p1", "x"); ("p2", "y"); ("p3", "x")]) ["name"] [] None = Some out ∧
    up_inserted out = Some rows ∧
    ∃ goNames, goNames_of (Some agent_table) ["name"] = Some goNames ∧
      keeps_last_per_key (upsert_key goNames agent_render)
        [("p1", "x"); ("p2", "y"); ("p3", "x")] rows.
Proof.
  eexists _, _. split; [reflexivity|]. split; [reflexivity|].
  exact (Upsert_dedups_by_key (Some agent_table) agent_render
           [("p1", "x"); ("p2", "y"); ("p3", "x")] ["name"] [] None _ _ eq_refl eq_refl).
Defined.

Example Upsert_agents :
  ∃ out, Upsert (Some agent_table) agent_render
      (RSlice [("p1", "x"); ("p2", "y"); ("p3", "x")]) ["name"] [] None = Some out ∧
    (∃ rows, up_inserted out = Some rows ∧ rows ≡ₚ [("p2", "y"); ("p3", "x")]).
Proof. eexists. split; [reflexivity|]. eexists. split; [reflexivity|]. simpl.
  solve_Permutation. Qed.

(** The sibling operations convert every driver error. *)
Lemma FindOne_converts ctx d : ∃ e, FindOne ctx (Some d) = Some e ∧ is_app_kind e = true.
Proof. destruct d; eexists; split; reflexivity. Qed.

(** C3 (code defect): when the final [q.Insert()] of [Upsert] fails, the
    driver's error is returned as is, not converted to an application
    error kind. *)
Theorem Upsert_insert_error_unconverted :
  ∃ out, Upsert (Some agent_table) agent_render
      (RSlice [("p1", "x")]) ["name"] ["name"] (Some (DrvOther 5)) = Some out ∧
    up_err out = Some (EDriver (DrvOther 5)) ∧
    is_app_kind (EDriver (DrvOther 5)) = false.
Proof. eexists. split; [reflexivity|]. split; reflexivity. Qed.

Example ExecOne_one : ExecOne (inr {| RowsAffected := 1 |}) = (Some {| RowsAffected := 1 |}, None).
Proof. reflexivity. Qed.

Example UpdateWhere_ok :
  UpdateWhere (New 0) Background 9 [GStr "name"; GStr "x"] None =
  UWExec [("name", GStr "x"); ("updated", GTime 9)] None.
Proof. reflexivity. Qed.

Example UpdateWhere_bad :
  UpdateWhere (New 0) Background 9 [GInt 1; GStr "x"] None =
  UWReturn (EInternal "UpdateWhere: field must be string").
Proof. reflexivity. Qed.

(** C8 (counterexample): a successful Exec whose result reports a
    negative row count (go-pg reports -1 for commands without a count)
    is returned with a nil error although the count is not 1. *)
Lemma ExecOne_negative_count_accepted :
  ExecOne (inr {| RowsAffected := -1 |}) = (Some {| RowsAffected := -1 |}, None) ∧
  RowsAffected {| RowsAffected := -1 |} ≠ 1%Z.
Proof. split; [reflexivity|discriminate]. Qed.

(** C8 (as amended): after a successful Exec or Query, ExecOne and QueryOne
    return [pg.ErrNoRows] for a count of 0, [pg.ErrMultiRows] for a count
    above 1, and the result with a nil error for every other count (1 or
    negative); a failing Exec or Query is returned as is. *)
Theorem ExecOne_QueryOne_row_check (res : orm_result) (e : drv_err) :
  ExecOne (inl e) = (None, Some e) ∧ QueryOne (inl e) = (None, Some e) ∧
  (RowsAffected res = 0%Z →
     ExecOne (inr res) = (None, Some ErrNoRows) ∧ QueryOne (inr res) = (None, Some ErrNoRows)) ∧
  ((1 < RowsAffected res)%Z →
     ExecOne (inr res) = (None, Some ErrMultiRows) ∧ QueryOne (inr res) = (None, Some ErrMultiRows)) ∧
  (RowsAffected res ≠ 0%Z → (RowsAffected res <= 1)%Z →
     ExecOne (inr res) = (Some res, None) ∧ QueryOne (inr res) = (Some res, None)).
Proof.
  unfold ExecOne, QueryOne, assertOneRow.
  split; [reflexivity|]. split; [reflexivity|].
  destruct (Z.eqb_spec (RowsAffected res) 0) as [H0|H0];
  destruct (Z.gtb_spec (RowsAffected res) 1) as [H1|H1];
  repeat split; intros; try reflexivity; lia.
Qed.

(** ** UpdateWhere *)

Lemma land_one_even (n : nat) : Nat.land n 1 = 0%nat ↔ Nat.even n = true.
Proof.
  change 1%nat with (Nat.ones 1) at 1. rewrite Nat.land_ones.
  change (2 ^ 1)%nat with 2%nat.
  rewrite Nat.even_spec. pose proof (Nat.div_mod_eq n 2). split.
  - intros H'. exists (n / 2)%nat. lia.
  - intros [k ->]. rewrite Nat.mul_comm, Nat.Div0.mod_mul. reflexivity.
Qed.

Lemma uw_loop_ok (l : list goval) :
  Nat.even (length l) = true →
  (∀ i v, Nat.even i = true → l !! i = Some v → is_str v = true) →
  ∃ sets,
    (∀ acc l2, uw_loop (l ++ l2) acc = uw_loop l2 (acc ++ sets)) ∧
    2 * length sets = length l ∧
    (∀ j c v, sets !! j = Some (c, v) ↔
              l !! (2 * j) = Some (GStr c) ∧ l !! (2 * j + 1) = Some v).
Proof.
  remember (length l) as n eqn:Hn. revert l Hn.
  induction (lt_wf n) as [n _ IH]. intros l Hn He Hs. subst n.
  destruct l as [|x [|v rest]].
  - exists []. split; [intros; by rewrite app_nil_r|]. split; [reflexivity|].
    intros j c v. split; [intros H; inversion H|]. rewrite lookup_nil. intros [H _]; discriminate.
  - discriminate.
  - assert (Hx : is_str x = true) by (apply (Hs 0%nat); reflexivity).
    destruct x as [c| | |]; try discriminate.
    destruct (IH (length rest)) with (l := rest) as (sets & Hrun & Hlen & Hchar).
    + simpl. lia.
    + reflexivity.
    + exact He.
    + intros i v' Hi Hv'. apply (Hs (S (S i))); [exact Hi|exact Hv'].
    + exists ((c, v) :: sets). split; [|split].
      * intros acc l2. simpl. rewrite Hrun, <- app_assoc. reflexivity.
      * simpl. lia.
      * intros [|j] c' v'.
        -- simpl. split; [intros H; injection H as -> ->; split; reflexivity|].
           intros [H1 H2]. injection H1 as ->. injection H2 as ->. reflexivity.
        -- replace (2 * S j)%nat with (S (S (2 * j)))%nat by lia.
           replace (S (S (2 * j)) + 1)%nat with (S (S (2 * j + 1)))%nat by lia.
           apply Hchar.
Qed.

Lemma uw_loop_err (l : list goval) :
  Nat.even (length l) = true →
  (∃ i v, Nat.even i = true ∧ l !! i = Some v ∧ is_str v = false) →
  ∀ acc l2, ∃ msg, uw_loop (l ++ l2) acc = Some (inl (EInternal msg)).
Proof.
  remember (length l) as n eqn:Hn. revert l Hn.
  induction (lt_wf n) as [n _ IH]. intros l Hn He (i & w & Hi & Hw & Hns) acc l2. subst n.
  destruct l as [|x [|v rest]].
  - rewrite lookup_nil in Hw. discriminate.
  - discriminate.
  - destruct x as [c|z|t|]; simpl; try (eexists; reflexivity).
    destruct i as [|[|i]].
    + injection Hw as <-. discriminate.
    + discriminate.
    + apply (IH (length rest)); [simpl; lia|reflexivity|exact He|].
      exists i, w. split; [exact Hi|]. split; [exact Hw|exact Hns].
Qed.

(** C9: [UpdateWhere] with an odd number of arguments, or with a
    non-string at an even index, returns an internal error before any
    query runs; otherwise it runs the update with one [Set] per given
    field/value pair, in order, followed by the configured updated field
    set to the current time. *)
Theorem UpdateWhere_checks_pairs (r : DAO) (ctx : context) (now : Z)
    (pairs : list goval) (ures : option drv_err) :
  ((Nat.even (length pairs) = false ∨
    ∃ i v, Nat.even i = true ∧ pairs !! i = Some v ∧ is_str v = false) →
     ∃ msg, UpdateWhere r ctx now pairs ures = UWReturn (EInternal msg)) ∧
  (Nat.even (length pairs) = true →
   (∀ i v, Nat.even i = true → pairs !! i = Some v → is_str v = true) →
     ∃ sets,
       UpdateWhere r ctx now pairs ures =
         UWExec (sets ++ [(updatedField r, GTime now)]) (Convert ctx ∘ EDriver <$> ures) ∧
       2 * length sets = length pairs ∧
       (∀ j c v, sets !! j = Some (c, v) ↔
                 pairs !! (2 * j) = Some (GStr c) ∧ pairs !! (2 * j + 1) = Some v)).
Proof.
  unfold UpdateWhere. split.
  - intros [Hodd|Hbad].
    + destruct (Nat.eqb_spec (Nat.land (length pairs) 1) 0) as [H|H].
      * apply land_one_even in H. congruence.
      * eexists. reflexivity.
    + destruct (Nat.eqb_spec (Nat.land (length pairs) 1) 0) as [H|H]; simpl.
      * apply land_one_even in H.
        destruct (uw_loop_err pairs H Hbad [] [GStr (updatedField r); GTime now]) as [msg ->].
        eexists. reflexivity.
      * eexists. reflexivity.
  - intros He Hs.
    assert (H0 : Nat.land (length pairs) 1 = 0%nat) by (apply land_one_even; exact He).
    rewrite H0. simpl.
    destruct (uw_loop_ok pairs He Hs) as (sets & Hrun & Hlen & Hchar).
    exists sets. rewrite Hrun. simpl. split; [reflexivity|]. split; assumption.
Qed.

Lemma UpdateWhere_checks_pairs_witness :
  ∃ sets,
    UpdateWhere (New 0) Background 9 [GStr "name"; GStr "x"] None =
      UWExec (sets ++ [("updated", GTime 9)]) None ∧
    2 * length sets = 2%nat.
Proof.
  destruct (proj2 (UpdateWhere_checks_pairs (New 0) Background 9 [GStr "name"; GStr "x"] None)
              eq_refl)
    as (sets & Hrun & Hlen & _).
  - intros [|[|[|i]]] v Hi Hv; try discriminate; try (injection Hv as <-; reflexivity).
  - exists sets. split; [exact Hrun|exact Hlen].
Defined.

(** ** Migrator *)

Lemma TrimPrefix_one_char (c : ascii) (s : string) :
  Migrate.TrimPrefix s (String c EmptyString) = Migrate.drop_lead c s.
Proof.
  destruct s as [|c' r]; [reflexivity|].
  unfold Migrate.TrimPrefix, Migrate.drop_lead. simpl.
  destruct (ascii_dec c c') as [->|Hne].
  - rewrite Ascii.eqb_refl.
    replace (String.prefix "" r) with true by (destruct r; reflexivity).
    replace (String.length r - 0)%nat with (String.length r) by lia.
    clear. induction r as [|a r IH]; simpl; [reflexivity|]. by rewrite IH.
  - destruct (Ascii.eqb_spec c c'); [contradiction|reflexivity].
Qed.

Lemma NewMigrator_fields (p d : string) (opts : list Migrate.OptionFn) :
  Migrate.path (Migrate.NewMigrator p d opts) =
    String.append "file://" (Migrate.TrimPrefix (Migrate.TrimPrefix p ".") "/") ∧
  Migrate.dsn (Migrate.NewMigrator p d opts) = d.
Proof.
  unfold Migrate.NewMigrator.
  cut (∀ m, Migrate.path (foldl Migrate.apply_opt m opts) = Migrate.path m ∧
            Migrate.dsn (foldl Migrate.apply_opt m opts) = Migrate.dsn m).
  - intros H. apply H.
  - induction opts as [|o opts IH]; intros m; simpl; [split; reflexivity|].
    destruct (IH (Migrate.apply_opt m o)) as [-> ->]. destruct o; split; reflexivity.
Qed.

Lemma clean_all_handed m o schemes :
  Forall (Migrate.handed_ok m) (fst (Migrate.clean_all o schemes)).
Proof.
  induction schemes as [|sc rest IH]; simpl; [constructor|].
  repeat case_match; simpl in *; subst; repeat constructor; try exact IH.
  all: rewrite H1 in IH; exact IH.
Qed.

(** C7: [NewMigrator p dsn] sets the source to "file://" followed by [p]
    with one leading "." and then one leading "/" removed, keeps [dsn],
    whatever the options; [Run] opens the database with exactly that DSN
    and gives the engine exactly that source. *)
Theorem NewMigrator_source_and_dsn (p d : string) (opts : list Migrate.OptionFn)
    (o : Migrate.engine) :
  let m := Migrate.NewMigrator p d opts in
  Migrate.path m =
    String.append "file://" (Migrate.drop_lead "/" (Migrate.drop_lead "." p)) ∧
  Migrate.dsn m = d ∧
  Forall (Migrate.handed_ok m) (fst (Migrate.Run m o)).
Proof.
  intros m. destruct (NewMigrator_fields p d opts) as [Hp Hd].
  split; [unfold m; rewrite Hp, !TrimPrefix_one_char; reflexivity|].
  split; [exact Hd|].
  clear Hp Hd. pose proof (clean_all_handed m o (Migrate.cleanScheme m)) as Hc.
  unfold Migrate.Run.
  destruct (Migrate.clean_all o (Migrate.cleanScheme m)) as [tc rc]. simpl in Hc.
  repeat case_match; simpl;
    repeat (rewrite ?Forall_cons, ?Forall_app); simpl;
    repeat split; try reflexivity; try exact I; try exact Hc; constructor.
Qed.

Example NewMigrator_test_path :
  Migrate.path (Migrate.NewMigrator "./test/migrations" "dsn" []) = "file://test/migrations".
Proof. reflexivity. Qed.

(** ** Client pass-through *)

Lemma reachable_no_processor w : reachable w → w_wrapped w = None.
Proof.
  induction 1 as [conn opts| |]; simpl; try assumption.
  unfold NewDbClient.
  cut (∀ w0, w_wrapped (foldl (fun w o => apply_option o w) w0 opts) = w_wrapped w0);
    [intros H; apply H|].
  induction opts as [|[l d] opts IH]; intros w0; simpl; [reflexivity|apply IH].
Qed.

(** C6: on every client the package can build, each covered method uses
    the active transaction when one is set and the pooled connection
    otherwise, and does exactly the ORM call it names there with its own
    arguments. *)
Theorem client_is_pass_through (o : ORM) (w : dbWrapper) (op : client_op o) :
  reachable w →
  client_call o w op = forward o (active_handle w) op.
Proof.
  intros Hr. pose proof (reachable_no_processor w Hr) as Hp.
  unfold client_call, forward, active_handle.
  destruct op; rewrite ?Hp; destruct (w_tx w); reflexivity.
Qed.

Lemma client_is_pass_through_witness :
  let w := set_w_tx (WithContext (NewDbClient 3 [WithLogger 0 100]) Background) (Some 5%nat) in
  reachable w ∧
  client_call toy_orm w (@OpSelect toy_orm 1%nat) = forward toy_orm (HTx 5) (@OpSelect toy_orm 1%nat).
Proof.
  intros w. assert (Hr : reachable w) by (apply reach_tx, reach_ctx, reach_new).
  split; [exact Hr|].
  exact (client_is_pass_through toy_orm w (@OpSelect toy_orm 1%nat) Hr).
Defined.

Example toy_select_tx :
  client_call toy_orm (set_w_tx (NewDbClient 3 []) (Some 5%nat)) (@OpUpdate toy_orm 1%nat) =
  RErr None.
Proof. reflexivity. Qed.

(** ** Transaction context and slot: edge cases *)

(** The error of the driver's Rollback is only logged: [WithTX] returns
    the same result and leaves the same state whatever Rollback answers. *)
Theorem WithTX_ignores_rollback_error ctx br cr rr1 rr2 fn w :
  WithTX ctx br cr rr1 fn w = WithTX ctx br cr rr2 fn w.
Proof.
  unfold WithTX, Tx, WithContextM, StartTx, Begin, Rollback, Commit, ctx_Err.
  unfold_M. simpl.
  destruct (w_tx (client w)); [reflexivity|].
  destruct br; simpl; [reflexivity|].
  destruct (fn _ _) as [[ferr w2]|]; simpl; [|reflexivity].
  destruct (bool_decide _ || bool_decide _); [|reflexivity].
  destruct (w_tx (client w2)); reflexivity.
Qed.

(** When [WithTX] has to start a transaction and the driver's Begin
    fails, it returns the converted error without running [fn]: the only
    change is the context set on the client; no transaction is begun. *)
Theorem WithTX_begin_failure ctx d cr rr fn w :
  w_tx (client w) = None →
  WithTX ctx (Some d) cr rr fn w =
    Some (Some (Convert ctx (EDriver d)), set_client w (WithContext (client w) ctx)).
Proof.
  intros H. unfold WithTX, Tx, WithContextM, StartTx, Begin. unfold_M. simpl.
  rewrite H. reflexivity.
Qed.

Lemma WithTX_begin_failure_witness :
  WithTX Background (Some (DrvOther 1)) None None noop_fn (init_world 0) =
    Some (Some (Convert Background (EDriver (DrvOther 1))),
          set_client (init_world 0) (WithContext (client (init_world 0)) Background)).
Proof. exact (WithTX_begin_failure Background (DrvOther 1) None None noop_fn (init_world 0) eq_refl). Defined.

(** A DAO call made with the context [WithTX] passes runs on the new
    transaction [t]; with the context not cancelled, [t] is committed when
    that call succeeds (the Commit error is returned converted) and rolled
    back when it fails (its converted error is returned); the slot ends
    empty. *)
Theorem WithTX_DAO_Insert_joins_tx ctx cr rr ins w :
  w_tx (client w) = None →
  ctx_err (cancels w) ctx = None →
  ∃ res w',
    WithTX ctx None cr rr (fun c => DAO_Insert c ins) w = Some (res, w') ∧
    w_tx (client w') = None ∧
    (ins (HTx (next_tx w)) = None →
       res = Convert ctx ∘ EDriver <$> cr ∧
       log w' = EvCommit (next_tx w) :: EvBegin (next_tx w) :: log w) ∧
    (∀ d, ins (HTx (next_tx w)) = Some d →
       res = Some (Convert ctx (EDriver d)) ∧
       log w' = EvRollback (next_tx w) :: EvBegin (next_tx w) :: log w).
Proof.
  intros H Hc. unfold WithTX, Tx, WithContextM, StartTx, Begin, DAO_Insert, WithContextM,
    Rollback, Commit, ctx_Err.
  unfold_M. simpl. rewrite H. simpl. rewrite Hc.
  destruct (ins (HTx (next_tx w))) as [d|] eqn:Hi; simpl; rewrite ?Hc.
  - eexists _, _. split; [reflexivity|]. split; [reflexivity|].
    split; [discriminate|]. intros d' Hd. injection Hd as ->. split; reflexivity.
  - destruct cr; simpl; eexists _, _; (split; [reflexivity|]); (split; [reflexivity|]);
      (split; [intros _; split; reflexivity|intros d' Hd; discriminate]).
Qed.

Lemma WithTX_DAO_Insert_joins_tx_witness :
  ∃ res w',
    WithTX Background None None None (fun c => DAO_Insert c (fun _ => None)) (init_world 0) =
      Some (res, w') ∧ w_tx (client w') = None.
Proof.
  destruct (WithTX_DAO_Insert_joins_tx Background None None (fun _ => None) (init_world 0)
              eq_refl eq_refl) as (res & w' & H1 & H2 & _).
  exists res, w'. split; [exact H1|exact H2].
Defined.

(** ** Upsert: argument checks and what reaches the insert *)

Lemma goNames_of_missing (fields : gmap string string) (keys : list string) (k : string) :
  k ∈ keys → fields !! k = None → goNames_of (Some fields) keys = None.
Proof.
  intros Hk Hn. simpl. induction keys as [|k' keys IH]; [set_solver|].
  simpl. apply elem_of_cons in Hk as [->|Hk].
  - rewrite Hn. reflexivity.
  - destruct (fields !! k'); simpl; [|reflexivity].
    rewrite (IH Hk). reflexivity.
Qed.

(** [Upsert] checks its arguments in this order: empty [keys] give a
    bad-request error for any [recs] (even an empty slice); otherwise an
    empty slice panics (in [getType]), a [recs] whose [getType] is not a
    struct type panics (in [orm.GetTable]), and a key without a field in
    the table panics; a struct value, neither a slice nor a pointer,
    whose keys all have fields gives a bad-request error. *)
Theorem Upsert_argument_checks {A} (tbl : option (gmap string string))
    (render : A -> string -> string) (recs : recs_arg A) (k : string) (keys columns : list string)
    (ins : option drv_err) :
  Upsert tbl render recs [] columns ins = Some (up_return (EBadRequest "keys cannot be empty")) ∧
  Upsert tbl render (RSlice []) (k :: keys) columns ins = None ∧
  Upsert None render recs (k :: keys) columns ins = None ∧
  (∀ fields k', tbl = Some fields → k' ∈ k :: keys → fields !! k' = None →
     recs ≠ RSlice [] → Upsert tbl render recs (k :: keys) columns ins = None) ∧
  (goNames_of tbl (k :: keys) ≠ None →
     Upsert tbl render (@ROther A) (k :: keys) columns ins =
       Some (up_return (EBadRequest "recs must be slice or pointer to struct"))).
Proof.
  split; [reflexivity|]. split; [reflexivity|].
  split; [destruct recs as [[|x xs]|x|]; reflexivity|]. split.
  - intros fields k' -> Hk Hn Hr.
    assert (Hg : goNames_of (Some fields) (k :: keys) = None) by (eapply goNames_of_missing; eauto).
    unfold Upsert. destruct recs as [[|x xs]|x|]; try contradiction; rewrite Hg; reflexivity.
  - intros Hg. unfold Upsert. destruct (goNames_of tbl (k :: keys)); [reflexivity|contradiction].
Qed.

(** [Upsert] never returns its "models cannot be empty" error: whenever
    it reaches [q.Insert()], the rows handed over are non-empty, all taken
    from the slice (or the one pointed-to record), and the insert's
    driver error is what it returns. *)
Theorem Upsert_inserts_nonempty_subset {A} (tbl : option (gmap string string))
    (render : A -> string -> string) (recs : recs_arg A) (keys columns : list string)
    (ins : option drv_err) (out : upsert_out A) :
  Upsert tbl render recs keys columns ins = Some out →
  up_err out ≠ Some (EBadRequest "models cannot be empty") ∧
  ∀ rows, up_inserted out = Some rows →
    rows ≠ [] ∧ up_err out = EDriver <$> ins ∧
    match recs with
    | RSlice xs => ∀ x, x ∈ rows → x ∈ xs
    | RPtr x => rows = [x]
    | ROther => False
    end.
Proof.
  intros H. unfold Upsert in H.
  destruct keys as [|k keys]; [injection H as <-; split; [discriminate|intros rows Hr; discriminate]|].
  destruct recs as [[|y ys]|x|]; [discriminate| | |].
  - destruct (goNames_of tbl (k :: keys)) as [gn|]; [|discriminate].
    destruct (GetUniqueModels_spec (upsert_key gn render) (y :: ys)) as (_ & Hlast & Hall).
    destruct (GetUniqueModels (y :: ys) (upsert_key gn render)) as [|u us] eqn:Hu.
    + exfalso. destruct (Hall y) as (x & Hx & _); [left|]. set_solver.
    + injection H as <-. simpl. split; [destruct ins; discriminate|].
      intros rows Hr. injection Hr as <-. split; [discriminate|]. split; [reflexivity|].
      intros x Hx. apply Hlast in Hx.
      apply last_Some_elem_of in Hx. apply list_elem_of_filter in Hx. apply Hx.
  - destruct (goNames_of tbl (k :: keys)); [|discriminate].
    injection H as <-. simpl. split; [destruct ins; discriminate|].
    intros rows Hr. injection Hr as <-. split; [discriminate|]. split; reflexivity.
  - destruct (goNames_of tbl (k :: keys)); [|discriminate].
    injection H as <-. split; [discriminate|]. intros rows Hr; discriminate.
Qed.

Lemma Upsert_inserts_nonempty_subset_witness :
  ∃ out, Upsert (Some agent_table) agent_render (RSlice [("p1", "x"); ("p2", "x")])
           ["name"] [] None = Some out ∧
         up_err out ≠ Some (EBadRequest "models cannot be empty").
Proof.
  eexists. split; [reflexivity|].
  exact (proj1 (Upsert_inserts_nonempty_subset (Some agent_table) agent_render
                  (RSlice [("p1", "x"); ("p2", "x")]) ["name"] [] None _ eq_refl)).
Defined.

(** ** The slow-query logger *)

(** [BeforeQuery] creates the stash when it is nil, records the current
    time under "StartTime" (replacing an earlier value there) and keeps
    every other stash entry and the rest of the event. *)
Theorem BeforeQuery_stash (d : dbLogger) (t0 : Z) (e : query_event) (k : string) :
  (Stash (BeforeQuery d t0 e) ≫= (.!! queryStartTime)) = Some (SVTime t0) ∧
  (k ≠ queryStartTime →
     (Stash (BeforeQuery d t0 e) ≫= (.!! k)) = (Stash e ≫= (.!! k))) ∧
  FormattedQuery (BeforeQuery d t0 e) = FormattedQuery e ∧
  Err (BeforeQuery d t0 e) = Err e.
Proof.
  unfold BeforeQuery. simpl. split; [by rewrite lookup_insert_eq|].
  split; [|split; reflexivity].
  intros Hk. rewrite lookup_insert_ne by congruence.
  destruct (Stash e); simpl; [reflexivity|apply lookup_empty].
Qed.

Lemma str_append_assoc (s1 s2 s3 : string) :
  String.append (String.append s1 s2) s3 = String.append s1 (String.append s2 s3).
Proof.
  induction s1 as [|a s1 IH]; [reflexivity|].
  change (String a (String.append (String.append s1 s2) s3) =
          String a (String.append s1 (String.append s2 s3))).
  rewrite IH. reflexivity.
Qed.

Lemma str_append_empty_r (s : string) : String.append s "" = s.
Proof.
  induction s as [|a s IH]; [reflexivity|].
  change (String a (String.append s "") = String a s). rewrite IH. reflexivity.
Qed.

(** Going through [BeforeQuery] at [t0] and [AfterQuery] at [t1], a query
    whose text formats is logged according to the elapsed time
    [t1.Sub(t0)]: with a zero threshold always, at info level; with a
    non-zero threshold only when the elapsed time reaches it, at warn
    level.  The entry is "query: " and the query, then the elapsed whole
    milliseconds (truncated) when the elapsed time is not zero, then a
    line with the event's error when there is one. *)
Theorem slow_query_logging (d : dbLogger) (t0 t1 : Z) (e : query_event) (q : string) :
  FormattedQuery e = Some q →
  let el := time_Sub t1 t0 in
  let txt :=
    String.append "query: "
      (String.append q
        (String.append
           (if Z.eqb el 0 then "" else String.append " [" (String.append (itoa (Z.quot el 1000000)) " ms]"))
           (match Err e with Some m => String.append newline (String.append "error: " m) | None => "" end))) in
  (dl_duration d = 0%Z → AfterQuery d t1 (BeforeQuery d t0 e) = Some (Some (InfoLevel, txt))) ∧
  (dl_duration d ≠ 0%Z → (el < dl_duration d)%Z → AfterQuery d t1 (BeforeQuery d t0 e) = Some None) ∧
  (dl_duration d ≠ 0%Z → (dl_duration d <= el)%Z →
     AfterQuery d t1 (BeforeQuery d t0 e) = Some (Some (WarnLevel, txt))).
Proof.
  intros Hq el txt. unfold AfterQuery, BeforeQuery. simpl. rewrite Hq.
  rewrite lookup_insert_eq. fold el.
  assert (Hbody :
    (match Err e with
     | Some m => String.append
                   (if Z.eqb el 0 then String.append "query: " q
                    else String.append (String.append "query: " q)
                           (String.append " [" (String.append (itoa (Z.quot el 1000000)) " ms]")))
                   (String.append newline (String.append "error: " m))
     | None => if Z.eqb el 0 then String.append "query: " q
               else String.append (String.append "query: " q)
                      (String.append " [" (String.append (itoa (Z.quot el 1000000)) " ms]"))
     end) = txt).
  { unfold txt. destruct (Z.eqb el 0), (Err e); simpl;
      rewrite ?str_append_empty_r, ?str_append_assoc; reflexivity. }
  split; [|split].
  - intros H0. rewrite H0. simpl. rewrite <- Hbody.
    destruct (Z.eqb el 0), (Err e); reflexivity.
  - intros H0 Hlt. destruct (Z.eqb_spec (dl_duration d) 0); [contradiction|].
    destruct (Z.gtb_spec (dl_duration d) el); [reflexivity|lia].
  - intros H0 Hge. destruct (Z.eqb_spec (dl_duration d) 0); [contradiction|].
    destruct (Z.gtb_spec (dl_duration d) el); [lia|]. rewrite <- Hbody.
    destruct (Z.eqb el 0), (Err e); reflexivity.
Qed.

Lemma slow_query_logging_witness :
  AfterQuery (newDBLogger 0 100) 5000000
    (BeforeQuery (newDBLogger 0 100) 1000000
       {| Stash := None; FormattedQuery := Some "SELECT 1"; Err := None |}) =
    Some (Some (WarnLevel, "query: SELECT 1 [4 ms]")).
Proof.
  exact (proj2 (proj2 (slow_query_logging (newDBLogger 0 100) 1000000 5000000
                         {| Stash := None; FormattedQuery := Some "SELECT 1"; Err := None |}
                         "SELECT 1" eq_refl))
           ltac:(discriminate) ltac:(vm_compute; discriminate)).
Defined.

(** [AfterQuery] logs nothing when the query text does not format.  An
    event with no start time in its stash counts as taking no time: it is
    logged without a duration at info level with a zero threshold, never
    with a positive threshold, and at warn level with a negative one.  A
    start-time entry that is not a [time.Time] makes it panic. *)
Theorem AfterQuery_without_start (d : dbLogger) (now : Z) (e : query_event) :
  (FormattedQuery e = None → AfterQuery d now e = Some None) ∧
  (∀ q, FormattedQuery e = Some q → (Stash e ≫= (.!! queryStartTime)) = None →
     let txt := match Err e with
                | Some m => String.append (String.append "query: " q)
                              (String.append newline (String.append "error: " m))
                | None => String.append "query: " q
                end in
     AfterQuery d now e =
       Some (if Z.eqb (dl_duration d) 0 then Some (InfoLevel, txt)
             else if Z.gtb (dl_duration d) 0 then None else Some (WarnLevel, txt))) ∧
  (∀ q n, FormattedQuery e = Some q → (Stash e ≫= (.!! queryStartTime)) = Some (SVOther n) →
     AfterQuery d now e = None).
Proof.
  unfold AfterQuery. split; [intros H; rewrite H; reflexivity|]. split.
  - intros q Hq Hs. rewrite Hq.
    destruct (Stash e) as [st|]; simpl in Hs; [rewrite Hs|]; simpl;
      destruct (Z.eqb (dl_duration d) 0), (Z.gtb (dl_duration d) 0), (Err e); reflexivity.
  - intros q n Hq Hs. rewrite Hq. destruct (Stash e); simpl in Hs; [|discriminate].
    rewrite Hs. reflexivity.
Qed.

(** ** Connect and ConnectWithDSN *)

Lemma NewDbClient_fresh (conn : nat) (options : list Option) :
  NewDbClient conn options =
    {| w_ctx := None; w_conn := conn; w_tx := None; w_wrapped := None |}.
Proof.
  unfold NewDbClient.
  generalize {| w_ctx := None; w_conn := conn; w_tx := None; w_wrapped := None |}.
  induction options as [|[l dur] options IH]; intros w; simpl; [reflexivity|apply IH].
Qed.

(** [Connect] never replaces an [OnConnect] hook the caller set and
    installs [onConnect(AppName)] when there is none, keeping the other
    settings; it returns a fresh client on the pool opened with that
    configuration: nil context, no transaction, no wrapped
    processor, whatever the options. *)
Theorem Connect_hook_and_client (AppName : string) (cfg : pg_options) (options : list Option)
    (pgConnect : pg_options -> nat) :
  let cfg' := (Connect AppName cfg options pgConnect).1 in
  let w := (Connect AppName cfg options pgConnect).2 in
  OnConnect cfg' = Some (match OnConnect cfg with Some h => h | None => onConnect AppName end) ∧
  Database cfg' = Database cfg ∧
  w_conn w = pgConnect cfg' ∧ w_tx w = None ∧ w_wrapped w = None ∧ w_ctx w = None.
Proof.
  intros cfg' w. unfold cfg', w, Connect. simpl. rewrite NewDbClient_fresh. simpl.
  destruct (OnConnect cfg) eqn:H; simpl; rewrite ?H; repeat split.
Qed.

(** [ConnectWithDSN] returns a DSN that does not parse with the parser's
    error; otherwise it returns the client [Connect] builds exactly when
    its "select 1" probe succeeds with a row count that is neither 0 nor
    above 1, and else the driver's error as is ([pg.ErrNoRows],
    [pg.ErrMultiRows] or the Exec error), with no client. *)
Theorem ConnectWithDSN_outcome (appName dsn : string) (options : list Option)
    (ParseURL : string -> err + pg_options) (pgConnect : pg_options -> nat)
    (probe : drv_err + orm_result) :
  (∀ e, ParseURL dsn = inl e →
     ConnectWithDSN appName dsn options ParseURL pgConnect probe = (None, Some e)) ∧
  (∀ cfg, ParseURL dsn = inr cfg →
     (∀ d, probe = inl d →
        ConnectWithDSN appName dsn options ParseURL pgConnect probe = (None, Some (EDriver d))) ∧
     (∀ res, probe = inr res → RowsAffected res = 0%Z →
        ConnectWithDSN appName dsn options ParseURL pgConnect probe =
          (None, Some (EDriver ErrNoRows))) ∧
     (∀ res, probe = inr res → (1 < RowsAffected res)%Z →
        ConnectWithDSN appName dsn options ParseURL pgConnect probe =
          (None, Some (EDriver ErrMultiRows))) ∧
     (∀ res, probe = inr res → RowsAffected res ≠ 0%Z → (RowsAffected res <= 1)%Z →
        ConnectWithDSN appName dsn options ParseURL pgConnect probe =
          (Some (Connect appName cfg options pgConnect).2, None))).
Proof.
  unfold ConnectWithDSN. split; [intros e He; rewrite He; reflexivity|].
  intros cfg Hc. rewrite Hc.
  split; [intros d ->; reflexivity|].
  unfold ExecOne, assertOneRow.
  split; [|split]; [intros res -> H0| intros res -> H1 | intros res -> H0 H1].
  - rewrite H0. reflexivity.
  - destruct (Z.eqb_spec (RowsAffected res) 0); [lia|].
    destruct (Z.gtb_spec (RowsAffected res) 1); [reflexivity|lia].
  - destruct (Z.eqb_spec (RowsAffected res) 0); [lia|].
    destruct (Z.gtb_spec (RowsAffected res) 1); [lia|reflexivity].
Qed.

(** ** Migrator options and Run *)

Lemma apply_opts_clean (m : Migrate.Migrator) (opts : list Migrate.OptionFn) :
  Forall (fun o => ∀ s, o ≠ Migrate.WithClean s) opts →
  Migrate.cleanScheme (foldl Migrate.apply_opt m opts) = Migrate.cleanScheme m.
Proof.
  revert m. induction opts as [|o opts IH]; intros m Hf; simpl; [reflexivity|].
  apply Forall_cons in Hf as [Ho Hf]. rewrite (IH _ Hf).
  destruct o as [s|l]; [exfalso; exact (Ho s eq_refl)|reflexivity].
Qed.

Lemma apply_opts_logger (m : Migrate.Migrator) (opts : list Migrate.OptionFn) :
  Forall (fun o => ∀ l, o ≠ Migrate.WithLogger l) opts →
  Migrate.logger (foldl Migrate.apply_opt m opts) = Migrate.logger m.
Proof.
  revert m. induction opts as [|o opts IH]; intros m Hf; simpl; [reflexivity|].
  apply Forall_cons in Hf as [Ho Hf]. rewrite (IH _ Hf).
  destruct o as [s|l]; [reflexivity|exfalso; exact (Ho l eq_refl)].
Qed.

(** The migrator's options are applied in order and each replaces its
    field: the schemes to clean are those of the last [WithClean] (none
    without one), the logger is the last [WithLogger]'s (the no-op logger
    without one). *)
Theorem NewMigrator_last_option_wins (p d : string) (opts1 opts2 : list Migrate.OptionFn)
    (s : list string) (l : nat) :
  (Forall (fun o => ∀ s', o ≠ Migrate.WithClean s') opts2 →
     Migrate.cleanScheme (Migrate.NewMigrator p d (opts1 ++ Migrate.WithClean s :: opts2)) = s) ∧
  (Forall (fun o => ∀ l', o ≠ Migrate.WithLogger l') opts2 →
     Migrate.logger (Migrate.NewMigrator p d (opts1 ++ Migrate.WithLogger l :: opts2)) = l) ∧
  (Forall (fun o => ∀ s', o ≠ Migrate.WithClean s') opts1 →
     Migrate.cleanScheme (Migrate.NewMigrator p d opts1) = []) ∧
  (Forall (fun o => ∀ l', o ≠ Migrate.WithLogger l') opts1 →
     Migrate.logger (Migrate.NewMigrator p d opts1) = 0%nat).
Proof.
  unfold Migrate.NewMigrator. split; [|split; [|split]]; intros Hf.
  - rewrite foldl_app. simpl. rewrite (apply_opts_clean _ _ Hf). reflexivity.
  - rewrite foldl_app. simpl. rewrite (apply_opts_logger _ _ Hf). reflexivity.
  - rewrite (apply_opts_clean _ _ Hf). reflexivity.
  - rewrite (apply_opts_logger _ _ Hf). reflexivity.
Qed.

Lemma clean_all_queries (o : Migrate.engine) (schemes : list string) :
  ∀ c, c ∈ (Migrate.clean_all o schemes).1 → ∃ q, c = Migrate.XQuery q.
Proof.
  induction schemes as [|sc rest IH]; simpl; [set_solver|].
  intros c. repeat case_match; simpl in *; subst;
    rewrite ?elem_of_cons; intros Hc;
    repeat match goal with
           | H : _ ∨ _ |- _ => destruct H as [H|H]
           end;
    try (subst; eexists; reflexivity); try set_solver.
  all: apply IH; rewrite H1; exact Hc.
Qed.

(** When all its queries succeed, the cleaning step drops and re-creates
    each configured scheme, in order.  When cleaning fails, [Run] returns
    that error and has made no call other than opening the database and
    the cleaning queries: the migration engine is never reached. *)
Theorem Run_cleaning (m : Migrate.Migrator) (o : Migrate.engine) :
  ((∀ q, Migrate.fails o (Migrate.XQuery q) = None) →
     ∀ schemes, Migrate.clean_all o schemes = (schemes ≫= clean_queries, None)) ∧
  (∀ e, Migrate.fails o (Migrate.XOpen Migrate.driverName (Migrate.dsn m)) = None →
     (Migrate.clean_all o (Migrate.cleanScheme m)).2 = Some e →
     (Migrate.Run m o).2 = Some e ∧
     ∀ c, c ∈ (Migrate.Run m o).1 →
       c = Migrate.XOpen Migrate.driverName (Migrate.dsn m) ∨ ∃ q, c = Migrate.XQuery q).
Proof.
  split.
  - intros Hq schemes. induction schemes as [|sc rest IH]; simpl; [reflexivity|].
    rewrite !Hq, IH. reflexivity.
  - intros e Ho Hc. pose proof (clean_all_queries o (Migrate.cleanScheme m)) as Hq.
    unfold Migrate.Run. rewrite Ho.
    destruct (Migrate.clean_all o (Migrate.cleanScheme m)) as [tc rc]. simpl in Hc, Hq.
    subst rc. simpl. split; [reflexivity|].
    intros c Hin. apply elem_of_cons in Hin as [->|Hin]; [left; reflexivity|right; exact (Hq c Hin)].
Qed.

Lemma Run_cleaning_witness :
  Migrate.clean_all {| Migrate.fails := fun _ => None;
                       Migrate.version := fun _ => (0%nat, false, None);
                       Migrate.up := Migrate.UpOk |} ["public"] =
    (["public"] ≫= clean_queries, None).
Proof.
  exact (proj1 (Run_cleaning (Migrate.NewMigrator "./m" "dsn" [])
                  {| Migrate.fails := fun _ => None;
                     Migrate.version := fun _ => (0%nat, false, None);
                     Migrate.up := Migrate.UpOk |})
           (fun _ => eq_refl) ["public"]).
Defined.

(** Once the database is open, cleaned and handed to the engine: if the
    version before migrating is 0, errors from [Version()] are never
    reported, [Up()] runs and [Run] returns only its error ([ErrNoChange]
    counts as success); if the version is not 0 and [Version()] fails,
    [Run] returns that error without calling [Up()]. *)
Theorem Run_version_errors (m : Migrate.Migrator) (o : Migrate.engine)
    (tc : list Migrate.ext_call) :
  Migrate.fails o (Migrate.XOpen Migrate.driverName (Migrate.dsn m)) = None →
  Migrate.clean_all o (Migrate.cleanScheme m) = (tc, None) →
  Migrate.fails o Migrate.XWithInstance = None →
  Migrate.fails o (Migrate.XNewWithDatabaseInstance (Migrate.path m) Migrate.driverName) = None →
  (∀ dirty verr, Migrate.version o 0 = (0%nat, dirty, verr) →
     (Migrate.XUp ∈ (Migrate.Run m o).1) ∧
     (Migrate.Run m o).2 = match Migrate.up o with Migrate.UpErr e => Some e | _ => None end) ∧
  (∀ b dirty e, Migrate.version o 0 = (b, dirty, Some e) → b ≠ 0%nat →
     (Migrate.XUp ∉ (Migrate.Run m o).1) ∧ (Migrate.Run m o).2 = Some e).
Proof.
  intros Ho Hc Hw Hn. unfold Migrate.Run. rewrite Ho, Hc, Hw, Hn. split.
  - intros dirty verr Hv. rewrite Hv. simpl.
    rewrite andb_false_r.
    destruct (Migrate.up o) as [| |e']; simpl.
    + destruct (Migrate.version o 1) as [[? ?] ?]. rewrite andb_false_r. simpl.
      split; [set_solver|reflexivity].
    + destruct (Migrate.version o 1) as [[? ?] ?]. rewrite andb_false_r. simpl.
      split; [set_solver|reflexivity].
    + split; [set_solver|reflexivity].
  - intros b dirty e Hv Hb. rewrite Hv. simpl.
    destruct (Nat.eqb_spec b 0); [contradiction|]. simpl.
    split; [|reflexivity].
    pose proof (clean_all_queries o (Migrate.cleanScheme m)) as Hq. rewrite Hc in Hq. simpl in Hq.
    assert (Migrate.XUp ∉ tc) by (intros Hin; destruct (Hq _ Hin); discriminate).
    set_solver.
Qed.

Lemma Run_version_errors_witness :
  let m := Migrate.NewMigrator "./m" "dsn" [] in
  let o := {| Migrate.fails := fun _ => None;
              Migrate.version := fun _ => (0%nat, false, Some (EUser 1));
              Migrate.up := Migrate.UpNoChange |} in
  (Migrate.Run m o).2 = None.
Proof.
  intros m o.
  exact (proj2 (proj1 (Run_version_errors m o [] eq_refl eq_refl eq_refl eq_refl)
                  false (Some (EUser 1)) eq_refl)).
Defined.
